(** * daisugi: a handler-composition engine

    Shallow embedding of [src/daisugi/daisugi.ts] and the properties of its
    pipelines.

    Modelling choices, all of them visible in the definitions below.

    - A JavaScript value is a [value]; the three duck-typed signal objects
      [{ code: 'DAISUGI:ABORT', result }], [{ code: 'DAISUGI:JUMP', handler,
      args }] and [{ code: 'DAISUGI:STOP_PROPAGATION', result }] are the
      constructors [AbortException], [JumpException] and [StopException].
    - A promise is represented by its settlement ([VFulfilled], [VRejected]);
      a reaction attached with [then] or [catch] is run against that
      settlement. The micro-task interleaving is not modelled: the theorems
      speak of final results, of the arguments a handler receives and of
      which handlers run.
    - A user handler is a [Handler]: whether it was written with [async]
      syntax, its [meta] fields and a body. Bodies are small command trees
      ([prog]) over the operations a handler has at hand: return, throw, the
      exported [abortWith] and the members of the toolkit.
    - The closures created by [decorateHandler] live in the [handlers] array
      of their pipeline; a closure is referred to by the pair (array, index).
      The registry [globalHandlersByName] is a [gmap] from names to such
      references.
    - A decorator is a function from handlers to handlers; [decorateHandler]
      folds the decorators over the user handler and restores [meta] after
      each of them.
    - One invocation is in flight at a time, so the toolkit of a wrapped
      handler, whose [next] and [abort] accessors are redefined at every
      invocation, is built from the arguments of the invocation.
    - Calls are interpreted with fuel, since a jump may target the chain it
      comes from. [OutOfFuel] is never a result the theorems accept.
    - The trace of user-handler invocations is ghost state: it records which
      user handlers ran, in which order and on which arguments.
    - The type declarations of [./types] ([Handler], [Toolkit],
      [HandlersByName], the exception types) are erased at run time; the
      records below have the fields that [daisugi.ts] reads and writes.
    - A name absent from the registry is looked up as [undefined]. The keys
      that the registry object inherits from [Object.prototype] behave the
      same way as far as the model goes: wrapped and called, they raise a
      type error as well. *)

From Stdlib Require Import ZArith.
From stdpp Require Import base option list gmap strings.

Open Scope nat_scope.

(** ** Values *)

(** A callable produced by the engine: the [handler] closure that
    [decorateHandler] pushed at index [i] of array [p], or the function
    returned by [decorateWithExceptionCapture] for a target ([None] is
    [undefined]). *)
Inductive fnref : Type :=
| FHandler (p i : nat)
| FCapture (target : option (nat * nat)).

#[warnings="-register-all"]
Inductive value : Type :=
| VUndefined
| VNull
| VNum (z : Z)
| VStr (s : string)
| VError (msg : string)
| VTypeError
| AbortException (result : value)
| JumpException (handler : fnref) (args : list value)
| StopException (result : value)
| VFulfilled (v : value)
| VRejected (reason : value).

(** ** User handlers *)

(** The body of a user handler, after it has received its arguments:
    [return v], [throw e], the exported [abortWith(result)], and the members
    of the toolkit [toolkit.abortWith(result)], [toolkit.nextWith(...args)],
    [toolkit.next], [toolkit.abort] and [toolkit.jumpTo(name, ...args)]. The
    continuations receive what the call returned. *)
Inductive prog : Type :=
| Return (v : value)
| Throw (e : value)
| AbortWith (result : value)
| TkAbortWith (result : value)
| TkNextWith (args : list value) (k : value -> prog)
| TkNext (k : value -> prog)
| TkAbort
| TkJumpTo (name : string) (args : list value).

(** A user function: [asyncFunction] tells whether it was declared with
    [async]; [injectToolkit] and [name] are the fields of [meta], [false] and
    [None] when absent. *)
Record Handler : Type := mkHandler {
  asyncFunction : bool;
  injectToolkit : bool;
  name : option string;
  body : list value -> prog
}.

Definition HandlerDecorator : Type := Handler -> Handler.

(** [handler.constructor.name === 'AsyncFunction'] *)
Definition isFnAsync (handler : Handler) : bool := asyncFunction handler.

(** ** Outcomes and the invocation monad *)

Inductive outcome : Type :=
| Normal (v : value)
| Thrown (e : value)
| OutOfFuel.

(** Ghost record of the user handlers that ran: array, index, arguments. *)
Abbreviation event := (nat * nat * list value)%type.
Abbreviation trace := (list event).

Definition M : Type := trace -> outcome * trace.

Definition ret (o : outcome) : M := fun t => (o, t).

Definition bind (m : M) (k : value -> M) : M :=
  fun t =>
    match m t with
    | (Normal v, t') => k v t'
    | (o, t') => (o, t')
    end.

Definition try_catch (m : M) (h : value -> M) : M :=
  fun t =>
    match m t with
    | (Thrown e, t') => h e t'
    | (o, t') => (o, t')
    end.

Notation "'let!' x ':=' m 'in' k" := (bind m (fun x => k))
  (at level 10, x name, m at level 100, k at level 200).

(** ** Promises *)

Definition is_promise (v : value) : bool :=
  match v with
  | VFulfilled _ | VRejected _ => true
  | _ => false
  end.

(** [Promise.resolve(v)] *)
Definition promise_resolve (v : value) : value :=
  if is_promise v then v else VFulfilled v.

(** The promise made from a computation: the return value of an [async]
    function, or of a reaction. *)
Definition settle (m : M) : M :=
  fun t =>
    match m t with
    | (Normal v, t') => (Normal (promise_resolve v), t')
    | (Thrown e, t') => (Normal (VRejected e), t')
    | (OutOfFuel, t') => (OutOfFuel, t')
    end.

(** [p.then(f)] *)
Definition promise_then (p : value) (f : value -> M) : M :=
  match p with
  | VFulfilled v => settle (f v)
  | VRejected e => ret (Normal (VRejected e))
  | _ => ret (Thrown VTypeError)
  end.

(** [p.catch(f)] *)
Definition promise_catch (p : value) (f : value -> M) : M :=
  match p with
  | VFulfilled v => ret (Normal (VFulfilled v))
  | VRejected e => settle (f e)
  | _ => ret (Thrown VTypeError)
  end.

(** ** Signals *)

(** [throw { code: abortExceptionCode, result }] *)
Definition abortWith (result : value) : outcome :=
  Thrown (AbortException result).

(** [return { code: stopPropagationExceptionCode, result }] *)
Definition stopPropagationWith (result : value) : value :=
  StopException result.

(** [args[0]?.code === stopPropagationExceptionCode], with [args[0].result]. *)
Definition stopPropagationPayload (args : list value) : option value :=
  match args with
  | StopException result :: _ => Some result
  | _ => None
  end.

(** Reading [error.code] of [undefined] or [null] is a type error; any other
    value without one of the two codes is thrown again. *)
Definition captureException (callee : fnref -> list value -> M)
    (error : value) : M :=
  match error with
  | VUndefined | VNull => ret (Thrown VTypeError)
  | AbortException result => ret (Normal result)
  | JumpException handler args => callee handler args
  | _ => ret (Thrown error)
  end.

(** Wrapping does not look at its argument: [decorateWithExceptionCapture]
    of [undefined] is a function too. What the function does when called is
    [captured] below. *)
Definition decorateWithExceptionCapture (handler : option (nat * nat)) : fnref :=
  FCapture handler.

(** ** Wrapped handlers and the factory state *)

Record Meta : Type := mkMeta {
  isAsync : bool;
  shouldBeTreatAsAsync : bool
}.

(** What the [handler] closure of [decorateHandler] captures, and its
    mutable [__meta__] property. *)
Record Wrapped : Type := mkWrapped {
  nextHandlerIndex : nat;
  w_isAsync : bool;
  w_injectToolkit : bool;
  decoratedUserHandler : Handler;
  __meta__ : Meta
}.

(** The state behind one call of [daisugi]: the decorators, the [handlers]
    arrays created so far by [pipeline()], and the registry shared by all of
    them. *)
Record Factory : Type := mkFactory {
  userHandlerDecorators : list HandlerDecorator;
  pipelines : list (list Wrapped);
  globalHandlersByName : gmap string (nat * nat)
}.

Record Toolkit : Type := mkToolkit {
  nextWith : list value -> M;
  tk_abortWith : value -> outcome;
  jumpTo : string -> list value -> outcome;
  next : M;
  abort : outcome
}.

(** ** Building a pipeline *)

(** [decoratedHandler.meta = previousHandler.meta] *)
Definition set_meta (h : Handler) (from : Handler) : Handler :=
  {| asyncFunction := asyncFunction h;
     injectToolkit := injectToolkit from;
     name := name from;
     body := body h |}.

Definition decorate (ds : list HandlerDecorator) (userHandler : Handler) : Handler :=
  fold_left
    (fun previousHandler userHandlerDecorator =>
       set_meta (userHandlerDecorator previousHandler) previousHandler)
    ds userHandler.

(** A non-empty string is truthy. *)
Definition truthy_name (n : option string) : option string :=
  match n with
  | Some s => if decide (s = EmptyString) then None else Some s
  | None => None
  end.

(** [handler.__meta__.shouldBeTreatAsAsync = isAsync], under [if (isAsync)]. *)
Definition mark_async (w : Wrapped) : Wrapped :=
  {| nextHandlerIndex := nextHandlerIndex w;
     w_isAsync := w_isAsync w;
     w_injectToolkit := w_injectToolkit w;
     decoratedUserHandler := decoratedUserHandler w;
     __meta__ := {| isAsync := isAsync (__meta__ w);
                    shouldBeTreatAsAsync := true |} |}.

(** [decorateHandler] for the array [p]: the new closure, the array after
    the marking of the handlers already in it, and the registry after the
    registration of the closure under its name. The closure is registered
    by the place it is about to be pushed at. *)
Definition decorateHandler (p : nat) (userHandler : Handler)
    (ds : list HandlerDecorator) (handlers : list Wrapped)
    (reg : gmap string (nat * nat))
    : Wrapped * list Wrapped * gmap string (nat * nat) :=
  let async := isFnAsync userHandler in
  let handler :=
    {| nextHandlerIndex := length handlers + 1;
       w_isAsync := async;
       w_injectToolkit := injectToolkit userHandler;
       decoratedUserHandler := decorate ds userHandler;
       __meta__ := {| isAsync := async; shouldBeTreatAsAsync := async |} |} in
  let reg' :=
    match truthy_name (name userHandler) with
    | Some n => <[n := (p, length handlers)]> reg
    | None => reg
    end in
  let handlers' := if async then mark_async <$> handlers else handlers in
  (handler, handlers', reg').

(** [userHandlers.forEach(u => handlers.push(decorateHandler(u, ...)))] *)
Definition add (p : nat) (ds : list HandlerDecorator)
    (userHandlers : list Handler)
    (st : list Wrapped * gmap string (nat * nat))
    : list Wrapped * gmap string (nat * nat) :=
  fold_left
    (fun st userHandler =>
       let '(handler, handlers', reg') :=
         decorateHandler p userHandler ds st.1 st.2 in
       (handlers' ++ [handler], reg'))
    userHandlers st.

(** [daisugi(userHandlerDecorators)] *)
Definition daisugi (ds : list HandlerDecorator) : Factory :=
  {| userHandlerDecorators := ds; pipelines := []; globalHandlersByName := ∅ |}.

(** One call of [pipeline()] followed by [add(userHandlers)]: a fresh array,
    stored as the next one of the factory. *)
Definition build (userHandlers : list Handler) (F : Factory) : Factory :=
  let p := length (pipelines F) in
  let st := add p (userHandlerDecorators F) userHandlers
                ([], globalHandlersByName F) in
  {| userHandlerDecorators := userHandlerDecorators F;
     pipelines := pipelines F ++ [st.1];
     globalHandlersByName := st.2 |}.

(** [handlers[0]] of the array [p]. *)
Definition first_handler (F : Factory) (p : nat) : option (nat * nat) :=
  match pipelines F !! p with
  | Some (_ :: _) => Some (p, 0)
  | _ => None
  end.

Definition entrySequenceOf (userHandlers : list Handler) (F : Factory)
    : fnref * Factory :=
  let F' := build userHandlers F in
  (decorateWithExceptionCapture (first_handler F' (length (pipelines F))), F').

(** [None] is [undefined]: [handlers[0]] of an empty array. *)
Definition sequenceOf (userHandlers : list Handler) (F : Factory)
    : option fnref * Factory :=
  let F' := build userHandlers F in
  ((fun r => FHandler r.1 r.2) <$> first_handler F' (length (pipelines F)), F').

(** ** Invoking *)

Definition lookupHandler (F : Factory) (p i : nat) : option Wrapped :=
  match pipelines F !! p with
  | Some handlers => handlers !! i
  | None => None
  end.

Section Invocation.

Variable F : Factory.
(** Calls made from inside a call: the same interpreter, one unit of fuel
    less. *)
Variable callee : fnref -> list value -> M.

(** The toolkit of the closure [w] of array [p], during an invocation on
    [args]. *)
Definition makeToolkit (p : nat) (w : Wrapped) (args : list value) : Toolkit :=
  let nextWith := fun args' =>
    match lookupHandler F p (nextHandlerIndex w) with
    | Some _ => callee (FHandler p (nextHandlerIndex w)) args'
    | None => ret (Normal VNull)
    end in
  {| nextWith := nextWith;
     tk_abortWith := abortWith;
     jumpTo := fun name args' =>
       Thrown (JumpException
                 (decorateWithExceptionCapture (globalHandlersByName F !! name))
                 args');
     next := nextWith args;
     abort := abortWith (default VUndefined (head args)) |}.

(** Running a body. Without [injectToolkit] the toolkit parameter is
    [undefined] and reading a member of it is a type error. *)
Fixpoint exec (toolkit : option Toolkit) (c : prog) : M :=
  match c with
  | Return v => ret (Normal v)
  | Throw e => ret (Thrown e)
  | AbortWith result => ret (abortWith result)
  | TkAbortWith result =>
      match toolkit with
      | Some tk => ret (tk_abortWith tk result)
      | None => ret (Thrown VTypeError)
      end
  | TkNextWith args k =>
      match toolkit with
      | Some tk => bind (nextWith tk args) (fun v => exec toolkit (k v))
      | None => ret (Thrown VTypeError)
      end
  | TkNext k =>
      match toolkit with
      | Some tk => bind (next tk) (fun v => exec toolkit (k v))
      | None => ret (Thrown VTypeError)
      end
  | TkAbort =>
      match toolkit with
      | Some tk => ret (abort tk)
      | None => ret (Thrown VTypeError)
      end
  | TkJumpTo name args =>
      match toolkit with
      | Some tk => ret (jumpTo tk name args)
      | None => ret (Thrown VTypeError)
      end
  end.

(** Calling a user function: an [async] function always hands back a
    promise, rejected when its body throws. The ghost event is recorded
    first. *)
Definition invokeUser (p i : nat) (h : Handler) (toolkit : option Toolkit)
    (args : list value) : M :=
  fun t =>
    let m := exec toolkit (body h args) in
    (if asyncFunction h then settle m else m) (t ++ [(p, i, args)]).

(** The [handler] closure of [decorateHandler], at index [i] of array [p]. *)
Definition handler (p i : nat) (w : Wrapped) (args : list value) : M :=
  match stopPropagationPayload args with
  | Some result => ret (Normal result)
  | None =>
    if w_injectToolkit w then
      invokeUser p i (decoratedUserHandler w)
        (Some (makeToolkit p w args)) args
    else
      match lookupHandler F p (nextHandlerIndex w) with
      | None => invokeUser p i (decoratedUserHandler w) None args
      | Some nextHandler =>
        let nextFn := fun v => callee (FHandler p (nextHandlerIndex w)) [v] in
        if w_isAsync w then
          let! r := invokeUser p i (decoratedUserHandler w) None args in
          promise_then r nextFn
        else if shouldBeTreatAsAsync (__meta__ nextHandler) then
          let! r := invokeUser p i (decoratedUserHandler w) None args in
          promise_then (promise_resolve r) nextFn
        else
          let! r := invokeUser p i (decoratedUserHandler w) None args in
          nextFn r
      end
  end.

(** The function returned by [decorateWithExceptionCapture(handler)]. *)
Definition captured (target : option (nat * nat)) (args : list value) : M :=
  match target with
  | None => ret (Thrown VTypeError)
  | Some (p, i) =>
    match lookupHandler F p i with
    | None => ret (Thrown VTypeError)
    | Some w =>
      if isAsync (__meta__ w) then
        let! r := callee (FHandler p i) args in
        promise_catch r (captureException callee)
      else if shouldBeTreatAsAsync (__meta__ w) then
        let! r := callee (FHandler p i) args in
        promise_catch (promise_resolve r) (captureException callee)
      else
        try_catch (callee (FHandler p i) args) (captureException callee)
    end
  end.

Definition call_body (f : fnref) (args : list value) : M :=
  match f with
  | FHandler p i =>
      match lookupHandler F p i with
      | Some w => handler p i w args
      | None => ret (Thrown VTypeError)
      end
  | FCapture target => captured target args
  end.

End Invocation.

Fixpoint call (fuel : nat) (F : Factory) (f : fnref) (args : list value) : M :=
  match fuel with
  | 0 => ret OutOfFuel
  | S n => call_body F (call n F) f args
  end.

(** ** Results that do not depend on the fuel *)

(** [le_M m1 m2]: whatever [m1] computes without running out of fuel, [m2]
    computes too. *)
Definition le_M (m1 m2 : M) : Prop :=
  forall t o t', m1 t = (o, t') -> o <> OutOfFuel -> m2 t = (o, t').

Definition le_callee (c1 c2 : fnref -> list value -> M) : Prop :=
  forall f args, le_M (c1 f args) (c2 f args).

Definition le_toolkit (tk1 tk2 : option Toolkit) : Prop :=
  match tk1, tk2 with
  | None, None => True
  | Some a, Some b =>
      (forall args, le_M (nextWith a args) (nextWith b args)) /\
      tk_abortWith a = tk_abortWith b /\
      jumpTo a = jumpTo b /\
      le_M (next a) (next b) /\
      abort a = abort b
  | _, _ => False
  end.

(** [ends_with F f args t o t']: called on [args] with trace [t], [f] ends
    with outcome [o] and trace [t']. *)
Definition ends_with (F : Factory) (f : fnref) (args : list value) (t : trace)
    (o : outcome) (t' : trace) : Prop :=
  exists fuel, call fuel F f args t = (o, t') /\ o <> OutOfFuel.

(** ** The chain a build produces, in closed form *)

(** The closure pushed at index [n] for [u], once the handlers [later] have
    been decorated after it. *)
Definition wrappedOf (ds : list HandlerDecorator) (n : nat) (u : Handler)
    (later : list Handler) : Wrapped :=
  {| nextHandlerIndex := S n;
     w_isAsync := isFnAsync u;
     w_injectToolkit := injectToolkit u;
     decoratedUserHandler := decorate ds u;
     __meta__ := {| isAsync := isFnAsync u;
                    shouldBeTreatAsAsync :=
                      isFnAsync u || existsb isFnAsync later |} |}.

Fixpoint chainOf (ds : list HandlerDecorator) (n : nat) (us : list Handler)
    : list Wrapped :=
  match us with
  | [] => []
  | u :: later => wrappedOf ds n u later :: chainOf ds (S n) later
  end.

(** The last index at which [us] registers the name [n], counting from [i]. *)
Fixpoint last_named_from (i : nat) (us : list Handler) (n : string)
    : option nat :=
  match us with
  | [] => None
  | u :: later =>
      match last_named_from (S i) later n with
      | Some j => Some j
      | None =>
          if decide (truthy_name (name u) = Some n) then Some i else None
      end
  end.

(** ** Chains of plain synchronous handlers *)

(** [u] is a synchronous function that asks for no toolkit and, once
    decorated, computes [f] on its arguments. *)
Definition pure_sync (ds : list HandlerDecorator) (u : Handler)
    (f : list value -> value) : Prop :=
  isFnAsync u = false /\ injectToolkit u = false /\
  asyncFunction (decorate ds u) = false /\
  forall args, body (decorate ds u) args = Return (f args).

(** [h_N(...h_2(h_1(args)))] for the functions [f :: fs]. *)
Fixpoint composition (f : list value -> value)
    (fs : list (list value -> value)) (args : list value) : value :=
  match fs with
  | [] => f args
  | g :: fs' => composition g fs' [f args]
  end.

(** Neither the first argument nor a value handed from one function to the
    next is a stop-propagation value. *)
Fixpoint no_stop (f : list value -> value)
    (fs : list (list value -> value)) (args : list value) : bool :=
  match stopPropagationPayload args with
  | Some _ => false
  | None =>
      match fs with
      | [] => true
      | g :: fs' => no_stop g fs' [f args]
      end
  end.

(** The invocations of a chain that runs to its end, from index [i] on. *)
Fixpoint invocations (p i : nat) (f : list value -> value)
    (fs : list (list value -> value)) (args : list value) : trace :=
  (p, i, args) ::
  match fs with
  | [] => []
  | g :: fs' => invocations p (S i) g fs' [f args]
  end.

(** A plain synchronous handler computing [f]. *)
Definition plain (f : list value -> value) : Handler :=
  {| asyncFunction := false; injectToolkit := false; name := None;
     body := fun args => Return (f args) |}.

(** [args[0]] *)
Definition first_arg (args : list value) : value :=
  default VUndefined (head args).

(** The chain [[() => stopPropagationWith(1), () => 7]]. *)
Definition stop_then_seven : list Handler :=
  [plain (fun _ => stopPropagationWith (VNum 1)); plain (fun _ => VNum 7)].

(** [(x, toolkit) => stopPropagationWith(result)]: a handler that takes the
    toolkit and returns a stop-propagation value. *)
Definition stop_with_toolkit (result : value) : Handler :=
  {| asyncFunction := false; injectToolkit := true; name := None;
     body := fun _ => Return (stopPropagationWith result) |}.

(** The decorator [handler => async (...args) => handler(...args)]. *)
Definition asyncify : HandlerDecorator :=
  fun handler =>
    {| asyncFunction := true; injectToolkit := injectToolkit handler;
       name := name handler; body := body handler |}.

(** The arguments the handler after the functions [fs] receives. *)
Fixpoint pipe (fs : list (list value -> value)) (args : list value)
    : list value :=
  match fs with
  | [] => args
  | f :: fs' => pipe fs' [f args]
  end.

(** None of the argument lists on the way through [fs], the last one
    included, starts with a stop-propagation value. *)
Fixpoint no_stop_through (fs : list (list value -> value))
    (args : list value) : bool :=
  match stopPropagationPayload args with
  | Some _ => false
  | None =>
      match fs with
      | [] => true
      | f :: fs' => no_stop_through fs' [f args]
      end
  end.

(** The invocations of the handlers computing [fs], from index [i] on. *)
Fixpoint prefix_invocations (p i : nat) (fs : list (list value -> value))
    (args : list value) : trace :=
  match fs with
  | [] => []
  | f :: fs' => (p, i, args) :: prefix_invocations p (S i) fs' [f args]
  end.

(** ** Signals at the entry point *)

Definition is_signal (v : value) : bool :=
  match v with
  | AbortException _ | JumpException _ _ | StopException _ => true
  | _ => false
  end.

(** The caller of the entry point receives a signal as a raised condition:
    thrown, or as the rejection of the promise it was handed. *)
Definition raises_signal (o : outcome) : bool :=
  match o with
  | Thrown e => is_signal e
  | Normal (VRejected e) => is_signal e
  | _ => false
  end.

(** A value that carries nothing a caller could receive as a raised signal:
    no Abort or Jump object, and no promise rejected with a signal. *)
Fixpoint clean (v : value) : bool :=
  match v with
  | AbortException _ | JumpException _ _ => false
  | StopException result => clean result
  | VFulfilled v' => clean v'
  | VRejected reason => negb (is_signal reason) && clean reason
  | _ => true
  end.

(** The signals the engine makes: what [abortWith(result)] and
    [toolkit.jumpTo(name, ...args)] throw, on clean payloads and arguments. *)
Definition engine_signal (e : value) : bool :=
  match e with
  | AbortException result => clean result
  | JumpException (FCapture _) args => forallb clean args
  | _ => false
  end.

(** What a chain throws: a signal of the engine, or a clean value that is no
    signal. *)
Definition may_throw (e : value) : bool :=
  engine_signal e || (clean e && negb (is_signal e)).

(** What a chain returns: a clean value, or the promise of an async handler
    rejected with a signal of the engine, on its way to the wrapper. *)
Definition may_return (v : value) : bool :=
  clean v ||
  match v with
  | VRejected reason => engine_signal reason
  | _ => false
  end.

(** A body that raises signals through [abortWith], [toolkit.abort] and
    [toolkit.jumpTo] only, on clean payloads and arguments: it throws no
    signal object of its own making, and what it returns is clean or is a
    value it [received] from [toolkit.nextWith] or [toolkit.next]. *)
Fixpoint well_behaved (received : value -> Prop) (c : prog) : Prop :=
  match c with
  | Return v => clean v = true \/ received v
  | Throw e => clean e = true /\ is_signal e = false
  | AbortWith result | TkAbortWith result => clean result = true
  | TkNextWith args k =>
      forallb clean args = true /\
      forall v, may_return v = true ->
        well_behaved (fun x => received x \/ x = v) (k v)
  | TkNext k =>
      forall v, may_return v = true ->
        well_behaved (fun x => received x \/ x = v) (k v)
  | TkAbort => True
  | TkJumpTo _ args => forallb clean args = true
  end.

(** A handler that the decorators leave of its kind, with such a body on
    clean arguments. *)
Definition tame_handler (ds : list HandlerDecorator) (u : Handler) : Prop :=
  asyncFunction (decorate ds u) = isFnAsync u /\
  forall args, forallb clean args = true ->
    well_behaved (fun _ => False) (body (decorate ds u) args).

(** A handler that cannot throw: it takes no toolkit and its body returns. *)
Definition quiet (ds : list HandlerDecorator) (u : Handler) : Prop :=
  injectToolkit u = false /\
  forall args, exists v, body (decorate ds u) args = Return v.

(** No handler of [us] that a wrapper can be put around (the first one, for
    an entry point, and the named ones, for jumps) is a synchronous handler
    that can throw while a later handler of [us] is async. *)
Fixpoint no_throw_under_mark (ds : list HandlerDecorator) (first : bool)
    (us : list Handler) : Prop :=
  match us with
  | [] => True
  | u :: later =>
      (first = true \/ is_Some (truthy_name (name u)) ->
       isFnAsync u = false -> existsb isFnAsync later = true -> quiet ds u)
      /\ no_throw_under_mark ds false later
  end.

Definition tame_chain (ds : list HandlerDecorator) (us : list Handler)
    : Prop :=
  Forall (tame_handler ds) us /\ no_throw_under_mark ds true us.

(** The same, read off the closures of a factory. *)
Definition next_marked (F : Factory) (p i : nat) : bool :=
  match lookupHandler F p i with
  | Some nh => shouldBeTreatAsAsync (__meta__ nh)
  | None => false
  end.

Definition guarded (w : Wrapped) : Prop :=
  isAsync (__meta__ w) = false -> shouldBeTreatAsAsync (__meta__ w) = true ->
  w_injectToolkit w = false /\
  forall args, exists v, body (decoratedUserHandler w) args = Return v.

Definition tame_factory (F : Factory) : Prop :=
  (forall p i w, lookupHandler F p i = Some w ->
     nextHandlerIndex w = S i /\
     w_isAsync w = isAsync (__meta__ w) /\
     asyncFunction (decoratedUserHandler w) = isAsync (__meta__ w) /\
     shouldBeTreatAsAsync (__meta__ w)
       = isAsync (__meta__ w) || next_marked F p (S i) /\
     (forall args, forallb clean args = true ->
        well_behaved (fun _ => False) (body (decoratedUserHandler w) args)) /\
     (i = 0 -> guarded w))
  /\ (forall n p i, globalHandlersByName F !! n = Some (p, i) ->
        exists w, lookupHandler F p i = Some w /\ guarded w).

(** The target of a wrapper, when it is a synchronous handler under the
    treat-as-async mark, cannot throw. *)
Definition target_guarded (F : Factory) (target : option (nat * nat))
    : Prop :=
  match target with
  | Some (p, i) => forall w, lookupHandler F p i = Some w -> guarded w
  | None => True
  end.

(** The jump a value carries, thrown or as a rejection, has such a target. *)
Definition targets_guarded (F : Factory) (x : value) : Prop :=
  match x with
  | JumpException (FCapture target) _
  | VRejected (JumpException (FCapture target) _) => target_guarded F target
  | _ => True
  end.

(** What a call hands back, for a chain and for a wrapper. *)
Definition chain_outcome (F : Factory) (marked : bool) (o : outcome) : Prop :=
  match o with
  | Normal v =>
      (if marked then may_return v else clean v) = true
      /\ targets_guarded F v
  | Thrown e => may_throw e = true /\ targets_guarded F e
  | OutOfFuel => True
  end.

Definition wrapper_outcome (o : outcome) : Prop :=
  match o with
  | Normal v => clean v = true
  | Thrown e => clean e = true /\ is_signal e = false
  | OutOfFuel => True
  end.

(** A closure that never throws: an async one, or a synchronous one under
    the mark that takes no toolkit and whose body returns. *)
Definition never_throws (w : Wrapped) : Prop :=
  isAsync (__meta__ w) = true
  \/ (shouldBeTreatAsAsync (__meta__ w) = true
      /\ w_injectToolkit w = false
      /\ forall args, exists v, body (decoratedUserHandler w) args = Return v).

(** A handler that throws [e]. *)
Definition thrower (e : value) : Handler :=
  {| asyncFunction := false; injectToolkit := false; name := None;
     body := fun _ => Throw e |}.

(** [async (x) => x] *)
Definition async_identity : Handler :=
  {| asyncFunction := true; injectToolkit := false; name := None;
     body := fun args => Return (first_arg args) |}.

(** [() => abortWith(result)] *)
Definition aborter (result : value) : Handler :=
  {| asyncFunction := false; injectToolkit := false; name := None;
     body := fun _ => AbortWith result |}.

(** ** Async contagion *)

(** The result of the handler at index [i] is awaited, then the successor is
    called on it: the successor is chained as a continuation. *)
Definition awaited_then_successor (F : Factory)
    (callee : fnref -> list value -> M) (p i : nat) (w : Wrapped)
    (args : list value) : M :=
  let toolkit :=
    if w_injectToolkit w then Some (makeToolkit F callee p w args) else None in
  let! r := invokeUser p i (decoratedUserHandler w) toolkit args in
  promise_then (promise_resolve r)
    (fun v => callee (FHandler p (nextHandlerIndex w)) [v]).

(** [(x, toolkit) => { toolkit.nextWith(1); return 2; }] *)
Definition calls_next_returns_two : Handler :=
  {| asyncFunction := false; injectToolkit := true; name := None;
     body := fun _ => TkNextWith [VNum 1] (fun _ => Return (VNum 2)) |}.

(** ** Jumps *)

(** [(x) => x], registered under [n]. *)
Definition named_identity (n : string) : Handler :=
  {| asyncFunction := false; injectToolkit := false; name := Some n;
     body := fun args => Return (first_arg args) |}.

(** [(x, toolkit) => toolkit.jumpTo(n, ...args)] *)
Definition jumper (n : string) (args : list value) : Handler :=
  {| asyncFunction := false; injectToolkit := true; name := None;
     body := fun _ => TkJumpTo n args |}.

(** [async (x, toolkit) => toolkit.jumpTo(n, ...args)] *)
Definition async_jumper (n : string) (args : list value) : Handler :=
  {| asyncFunction := true; injectToolkit := true; name := None;
     body := fun _ => TkJumpTo n args |}.

(** A factory in which a handler named [x] was registered by an earlier
    pipeline. *)
Definition factory_with_x : Factory :=
  build [named_identity "x"] (daisugi []).

(** ** The registry *)

(** [u] registers itself under [n]: its [meta.name] is [n], a truthy string. *)
Definition registers (u : Handler) (n : string) : Prop :=
  truthy_name (name u) = Some n.

(** [() => v], registered under [n]. *)
Definition named_constant (n : string) (v : value) : Handler :=
  {| asyncFunction := false; injectToolkit := false; name := Some n;
     body := fun _ => Return v |}.

(** ** Chains that mix synchronous and async handlers *)

(** The array [q] of [F] holds the chain built from [all]. *)
Definition has_chain (F : Factory) (q : nat) (all : list Handler) : Prop :=
  pipelines F !! q = Some (chainOf (userHandlerDecorators F) 0 all).

(** [u] asks for no toolkit and, once decorated, is a function of the same
    kind as [u] that computes [f] on its arguments. *)
Definition pure_handler (ds : list HandlerDecorator) (u : Handler)
    (f : list value -> value) : Prop :=
  injectToolkit u = false /\
  asyncFunction (decorate ds u) = isFnAsync u /\
  forall args, body (decorate ds u) args = Return (f args).

(** On the way through [f :: fs] no argument list starts with a
    stop-propagation value and no function returns a promise. *)
Fixpoint plain_values (f : list value -> value)
    (fs : list (list value -> value)) (args : list value) : bool :=
  match stopPropagationPayload args with
  | Some _ => false
  | None =>
      negb (is_promise (f args)) &&
      match fs with
      | [] => true
      | g :: fs' => plain_values g fs' [f args]
      end
  end.

(** The same for a prefix [fs] of the chain: the arguments of the handler
    after it are checked too. *)
Fixpoint plain_values_through (fs : list (list value -> value))
    (args : list value) : bool :=
  match stopPropagationPayload args with
  | Some _ => false
  | None =>
      match fs with
      | [] => true
      | f :: fs' => negb (is_promise (f args)) && plain_values_through fs' [f args]
      end
  end.

(** What the caller holds: the value, or a promise of it. *)
Definition awaited (async : bool) (v : value) : value :=
  if async then VFulfilled v else v.

(** How a thrown value comes out: thrown, or as a rejection. *)
Definition raised (rejected : bool) (e : value) : outcome :=
  if rejected then Normal (VRejected e) else Thrown e.

(** Whether a value thrown by the handler after the prefix [pre] comes out
    of the chain as a rejection: when that handler is async, or when it has
    predecessors and some handler of the chain is async. *)
Definition rejects (pre : list Handler) (u : Handler) (rest : list Handler)
    : bool :=
  match pre with
  | [] => isFnAsync u
  | _ :: _ => existsb isFnAsync (pre ++ u :: rest)
  end.

(** The first handler throws synchronously although a later handler is
    async. *)
Definition throws_before_any_promise (pre : list Handler) (u : Handler)
    (rest : list Handler) : bool :=
  match pre with
  | [] => negb (isFnAsync u) && existsb isFnAsync rest
  | _ :: _ => false
  end.

(** A value that [captureException] throws again as it is. *)
Definition genuine_error (e : value) : bool :=
  match e with
  | VUndefined | VNull | AbortException _ | JumpException _ _ => false
  | _ => true
  end.

(** ** Chains of handlers that drive the chain through the toolkit *)

(** A handler of the form
    [(...args, toolkit) => after(args, toolkit.nextWith(...before(args)))]. *)
Record Layer : Type := mkLayer {
  before : list value -> list value;
  after : list value -> value -> value
}.

Definition layer_handler (ds : list HandlerDecorator) (u : Handler)
    (L : Layer) : Prop :=
  injectToolkit u = true /\
  asyncFunction (decorate ds u) = false /\
  forall args,
    body (decorate ds u) args =
    TkNextWith (before L args) (fun v => Return (after L args v)).

(** What a chain of such handlers computes: each layer wraps the result of
    the layers after it, the innermost call finds no successor and gets
    [null], and a layer whose first argument is a stop-propagation value is
    replaced by the payload. *)
Fixpoint onion (Ls : list Layer) (args : list value) : value :=
  match Ls with
  | [] => VNull
  | L :: Ls' =>
      match stopPropagationPayload args with
      | Some result => result
      | None => after L args (onion Ls' (before L args))
      end
  end.

Fixpoint onion_invocations (q i : nat) (Ls : list Layer) (args : list value)
    : trace :=
  match Ls with
  | [] => []
  | L :: Ls' =>
      match stopPropagationPayload args with
      | Some _ => []
      | None => (q, i, args) :: onion_invocations q (S i) Ls' (before L args)
      end
  end.

(** [(x, toolkit) => toolkit.abort]. The engine appends the toolkit to the
    arguments of the invocation, so the parameter [toolkit] is the toolkit
    when the handler is invoked on one argument. On none, the toolkit lands
    in [x] and [toolkit] is [undefined]; on two or more, [toolkit] is the
    second argument, whose [abort] member is read: a type error on
    [undefined] and [null], [undefined] on any other value. *)
Definition abort_getter : Handler :=
  {| asyncFunction := false; injectToolkit := true; name := None;
     body := fun args =>
       match args with
       | [_] => TkAbort
       | [] => Throw VTypeError
       | _ :: (VUndefined | VNull) :: _ => Throw VTypeError
       | _ :: _ :: _ => Return VUndefined
       end |}.

(** [(...args) => after(args, toolkit.nextWith(...before(args)))], where
    [toolkit] is the last argument the engine passes:
    [(x, toolkit) => toolkit.nextWith(x + 1)] on one argument, and the
    like. *)
Definition layer (L : Layer) : Handler :=
  {| asyncFunction := false; injectToolkit := true; name := None;
     body := fun args =>
       TkNextWith (before L args) (fun v => Return (after L args v)) |}.

(** ** Factories a program can reach *)

(** [daisugi(ds)] followed by one build per list of [uss], in order. *)
Definition built_from (ds : list HandlerDecorator)
    (uss : list (list Handler)) : Factory :=
  fold_left (fun F us => build us F) uss (daisugi ds).

(** ** The routing layer built on the engine ([oza]) *)

(** [getUrl], [getQuerystring], [createRouteHandler] and [notFound]. The
    libraries they call are parameters: [parseQuery] is [querystring.parse],
    [emptyQuery] is the object [{}], and [pathMatch routePath] is
    [match(routePath, { decode: decodeURIComponent })] of path-to-regexp:
    [None] when it throws on the route path, and otherwise the function it
    makes, which on a url gives the params of a match, [false], or the
    [URIError] that [decodeURIComponent] throws on a malformed escape. A
    context is the object the handlers mutate and hand back; the fields they
    do not read are kept, with types of their own. *)
Module Oza.

Section Routing.

Context {Params Headers Query Body Raw : Type}.
Variable parseQuery : string -> Query.
Variable emptyQuery : Query.

(** What the function made by [match] gives on a url. *)
Inductive MatchResult : Type :=
| Matched (ps : Params)
| NoMatch
| URIError.

Variable pathMatch : string -> option (string -> MatchResult).

(** The character ['?'], code 63. *)
Definition questionMark : Ascii.ascii :=
  Ascii.Ascii true true true true true true false false.

(** [s.indexOf(c)], [-1] when [c] does not occur. *)
Fixpoint indexOf (c : Ascii.ascii) (s : string) : Z :=
  match s with
  | EmptyString => (-1)%Z
  | String a s' =>
      if Ascii.eqb a c then 0%Z
      else if (indexOf c s' =? -1)%Z then (-1)%Z else (indexOf c s' + 1)%Z
  end.

(** [getUrl(querystringStartPosition, rawRequest)], on [rawRequest.url]. *)
Definition getUrl (querystringStartPosition : Z) (url : string) : string :=
  if (querystringStartPosition >? -1)%Z
  then String.substring 0 (Z.to_nat querystringStartPosition) url
  else url.

(** [getQuerystring(querystringStartPosition, rawRequest)], on
    [rawRequest.url]. *)
Definition getQuerystring (querystringStartPosition : Z) (url : string)
    : Query :=
  if (querystringStartPosition >? -1)%Z
  then parseQuery
         (String.substring (Z.to_nat (querystringStartPosition + 1))
            (String.length url) url)
  else emptyQuery.

Record Request : Type := mkRequest {
  url : string;
  matchedRoutePath : option string;
  params : Params;
  headers : Headers;
  querystring : Query;
  body : Body;
  method : string
}.

Record Response : Type := mkResponse {
  statusCode : Z;
  response_body : Body;
  response_headers : Headers
}.

Record Context : Type := mkContext {
  rawRequest : Raw;
  rawResponse : Raw;
  request : Request;
  response : Response
}.

(** What a call of a routing handler does: it returns
    [stopPropagationWith(context)], returns [context], or throws the
    [URIError] of the matcher. In each case [context] is the context object
    as the call leaves it. *)
Inductive Reply : Type :=
| Stopped (context : Context)
| Returned (context : Context)
| Threw (context : Context).

(** The context object after the call. *)
Definition context_of (r : Reply) : Context :=
  match r with
  | Stopped context | Returned context | Threw context => context
  end.

(** [null] and the empty string are falsy. *)
Definition truthy (s : option string) : bool :=
  match s with
  | Some (String _ _) => true
  | _ => false
  end.

Definition set_statusCode (code : Z) (context : Context) : Context :=
  {| rawRequest := rawRequest context;
     rawResponse := rawResponse context;
     request := request context;
     response :=
       {| statusCode := code;
          response_body := response_body (response context);
          response_headers := response_headers (response context) |} |}.

Definition set_match (routePath : string) (ps : Params) (context : Context)
    : Context :=
  {| rawRequest := rawRequest context;
     rawResponse := rawResponse context;
     request :=
       {| url := url (request context);
          matchedRoutePath := Some routePath;
          params := ps;
          headers := headers (request context);
          querystring := querystring (request context);
          body := body (request context);
          method := method (request context) |};
     response := response context |}.

(** The function that [createRouteHandler] returns, for the matcher
    [matchFn] made from [routePath]. *)
Definition routeHandler (routePath : string) (matchFn : string -> MatchResult)
    (routeMethod : string) (context : Context) : Reply :=
  if truthy (matchedRoutePath (request context)) then Stopped context
  else if negb (String.eqb routeMethod "ALL")
          && negb (String.eqb (method (request context)) routeMethod)
  then Stopped context
  else
    match matchFn (url (request context)) with
    | NoMatch => Stopped context
    | URIError => Threw context
    | Matched ps =>
        Returned (set_statusCode 200 (set_match routePath ps context))
    end.

(** [createRouteHandler(routePath, routeMethod)]; [None] when [match] throws
    on the route path. *)
Definition createRouteHandler (routePath routeMethod : string)
    : option (Context -> Reply) :=
  match pathMatch routePath with
  | Some matchFn => Some (routeHandler routePath matchFn routeMethod)
  | None => None
  end.

Definition get (path : string) := createRouteHandler path "GET".
Definition post (path : string) := createRouteHandler path "POST".
Definition put (path : string) := createRouteHandler path "PUT".
Definition patch (path : string) := createRouteHandler path "PATCH".
Definition routeDelete (path : string) := createRouteHandler path "DELETE".
Definition all (path : string) := createRouteHandler path "ALL".

Definition notFound (context : Context) : Reply :=
  if truthy (matchedRoutePath (request context)) then Stopped context
  else Returned (set_statusCode 404 context).

(** A handler that [oza] hands out for routing. *)
Definition routing_handler (h : Context -> Reply) : Prop :=
  h = notFound
  \/ exists routePath routeMethod, createRouteHandler routePath routeMethod = Some h.

(** The first argument of a closure of the engine: a context, or a
    stop-propagation value around one. *)
Inductive Passed : Type :=
| PContext (context : Context)
| PStop (context : Context).

(** These handlers in a pipeline of the engine: the closure [handler] that
    [decorateHandler] makes at index [i] for the synchronous handler [h],
    which takes no toolkit, in a factory without decorators, followed by the
    closures of [rest], none of them async. On a stop-propagation value it
    returns the payload; without successor it returns what [h] returns;
    otherwise it calls the successor on what [h] returns. The list holds the
    indices of the user handlers that ran. *)
Fixpoint wrappedHandler (i : nat) (h : Context -> Reply)
    (rest : list (Context -> Reply)) (arg : Passed) : Reply * list nat :=
  match arg with
  | PStop context => (Returned context, [])
  | PContext context =>
      match rest with
      | [] => (h context, [i])
      | h' :: rest' =>
          match h context with
          | Threw c => (Threw c, [i])
          | Returned c =>
              let r := wrappedHandler (S i) h' rest' (PContext c) in
              (r.1, i :: r.2)
          | Stopped c =>
              let r := wrappedHandler (S i) h' rest' (PStop c) in
              (r.1, i :: r.2)
          end
      end
  end.

(** What a pipeline that starts with the route [(routePath, routeMethod)],
    matched by [matchFn], and goes on with at least one routing handler
    makes of a request: [last] tells that it goes on with exactly one. *)
Definition first_route_only (routePath : string)
    (matchFn : string -> MatchResult) (routeMethod : string) (last : bool)
    (context : Context) : Reply * list nat :=
  if negb (String.eqb routeMethod "ALL")
     && negb (String.eqb (method (request context)) routeMethod)
  then (Returned context, [0])
  else
    match matchFn (url (request context)) with
    | NoMatch => (Returned context, [0])
    | URIError => (Threw context, [0])
    | Matched ps =>
        let matched := set_statusCode 200 (set_match routePath ps context) in
        (if last then Stopped matched else Returned matched, [0; 1])
    end.

End Routing.

End Oza.

(** * Theorems *)

(** ** Fuel *)

(** The outcome of [m1] at [t] is known by [E] and is not [OutOfFuel]: [m2]
    has it too, and the enclosing operator hands it on unchanged. *)
Ltac same_outcome Hm E :=
  intros [= <- <-] _; rewrite (Hm _ _ _ E); [reflexivity|discriminate].

Ltac out_of_fuel := intros [= <- <-] Hne; contradiction.

Section Monotone.

Lemma le_M_refl m : le_M m m.
Proof. intros t o t' H _. exact H. Qed.

Lemma le_M_bind m1 m2 k1 k2 :
  le_M m1 m2 -> (forall v, le_M (k1 v) (k2 v)) -> le_M (bind m1 k1) (bind m2 k2).
Proof.
  intros Hm Hk t o t'. unfold bind.
  destruct (m1 t) as [o1 t1] eqn:E1.
  destruct o1 as [v|e|].
  - rewrite (Hm _ _ _ E1); [|discriminate]. apply Hk.
  - same_outcome Hm E1.
  - out_of_fuel.
Qed.

Lemma le_M_try_catch m1 m2 k1 k2 :
  le_M m1 m2 -> (forall v, le_M (k1 v) (k2 v)) ->
  le_M (try_catch m1 k1) (try_catch m2 k2).
Proof.
  intros Hm Hk t o t'. unfold try_catch.
  destruct (m1 t) as [o1 t1] eqn:E1.
  destruct o1 as [v|e|].
  - same_outcome Hm E1.
  - rewrite (Hm _ _ _ E1); [|discriminate]. apply Hk.
  - out_of_fuel.
Qed.

Lemma le_M_settle m1 m2 : le_M m1 m2 -> le_M (settle m1) (settle m2).
Proof.
  intros Hm t o t'. unfold settle.
  destruct (m1 t) as [o1 t1] eqn:E1.
  destruct o1 as [v|e|].
  - same_outcome Hm E1.
  - same_outcome Hm E1.
  - out_of_fuel.
Qed.

Lemma le_M_promise_then p k1 k2 :
  (forall v, le_M (k1 v) (k2 v)) -> le_M (promise_then p k1) (promise_then p k2).
Proof.
  intros Hk. destruct p; simpl; auto using le_M_refl, le_M_settle.
Qed.

Lemma le_M_promise_catch p k1 k2 :
  (forall v, le_M (k1 v) (k2 v)) -> le_M (promise_catch p k1) (promise_catch p k2).
Proof.
  intros Hk. destruct p; simpl; auto using le_M_refl, le_M_settle.
Qed.

Lemma le_M_captureException c1 c2 e :
  le_callee c1 c2 -> le_M (captureException c1 e) (captureException c2 e).
Proof.
  intros Hc. destruct e; simpl; auto using le_M_refl.
Qed.

Variable F : Factory.

Lemma le_toolkit_make c1 c2 p w args :
  le_callee c1 c2 ->
  le_toolkit (Some (makeToolkit F c1 p w args)) (Some (makeToolkit F c2 p w args)).
Proof.
  intros Hc. simpl. repeat split.
  - intros a. destruct (lookupHandler F p (nextHandlerIndex w)); auto using le_M_refl.
  - destruct (lookupHandler F p (nextHandlerIndex w)); auto using le_M_refl.
Qed.

Lemma le_M_exec tk1 tk2 c :
  le_toolkit tk1 tk2 -> le_M (exec tk1 c) (exec tk2 c).
Proof.
  intros Htk. induction c as [v|e|r|r|a k IH|k IH| |n a]; simpl;
    try apply le_M_refl;
    destruct tk1 as [a1|], tk2 as [a2|]; simpl in Htk; try contradiction;
    try apply le_M_refl;
    destruct Htk as (Hn & Ha & Hj & Hx & Hb).
  - rewrite Ha. apply le_M_refl.
  - apply le_M_bind; auto.
  - apply le_M_bind; auto.
  - rewrite Hb. apply le_M_refl.
  - rewrite Hj. apply le_M_refl.
Qed.

Lemma le_M_invokeUser p i h tk1 tk2 args :
  le_toolkit tk1 tk2 ->
  le_M (invokeUser p i h tk1 args) (invokeUser p i h tk2 args).
Proof.
  intros Htk t o t'. unfold invokeUser.
  destruct (asyncFunction h).
  - apply le_M_settle, le_M_exec, Htk.
  - apply le_M_exec, Htk.
Qed.

Lemma le_M_handler c1 c2 p i w args :
  le_callee c1 c2 -> le_M (handler F c1 p i w args) (handler F c2 p i w args).
Proof.
  intros Hc. unfold handler.
  destruct (stopPropagationPayload args); [apply le_M_refl|].
  destruct (w_injectToolkit w).
  - apply le_M_invokeUser, le_toolkit_make, Hc.
  - destruct (lookupHandler F p (nextHandlerIndex w)) as [nh|];
      [|apply le_M_refl].
    destruct (w_isAsync w); [|destruct (shouldBeTreatAsAsync (__meta__ nh))];
      apply le_M_bind; intros; try apply le_M_refl;
      try apply le_M_promise_then; intros; apply Hc.
Qed.

Lemma le_M_captured c1 c2 target args :
  le_callee c1 c2 -> le_M (captured F c1 target args) (captured F c2 target args).
Proof.
  intros Hc. unfold captured.
  destruct target as [[p i]|]; [|apply le_M_refl].
  destruct (lookupHandler F p i) as [w|]; [|apply le_M_refl].
  destruct (isAsync (__meta__ w)); [|destruct (shouldBeTreatAsAsync (__meta__ w))].
  - apply le_M_bind; [apply Hc|]. intros v.
    apply le_M_promise_catch. intros e. apply le_M_captureException, Hc.
  - apply le_M_bind; [apply Hc|]. intros v.
    apply le_M_promise_catch. intros e. apply le_M_captureException, Hc.
  - apply le_M_try_catch; [apply Hc|]. intros e.
    apply le_M_captureException, Hc.
Qed.

Lemma le_M_call_body c1 c2 f args :
  le_callee c1 c2 -> le_M (call_body F c1 f args) (call_body F c2 f args).
Proof.
  intros Hc. destruct f as [p i|target]; simpl.
  - destruct (lookupHandler F p i); [apply le_M_handler, Hc|apply le_M_refl].
  - apply le_M_captured, Hc.
Qed.

Lemma call_S n : le_callee (call n F) (call (S n) F).
Proof.
  induction n as [|n IH]; intros f args.
  - intros t o t' H Hne. simpl in H. unfold ret in H.
    injection H as <- <-. contradiction.
  - change (call (S n) F f args) with (call_body F (call n F) f args).
    change (call (S (S n)) F f args) with (call_body F (call (S n) F) f args).
    apply le_M_call_body, IH.
Qed.

Lemma call_mono n m : n <= m -> le_callee (call n F) (call m F).
Proof.
  induction 1 as [|m _ IH]; intros f args.
  - apply le_M_refl.
  - intros t o t' H Hne. apply call_S; auto. apply IH; auto.
Qed.

Lemma ends_with_det f args t o1 t1 o2 t2 :
  ends_with F f args t o1 t1 -> ends_with F f args t o2 t2 -> o1 = o2 /\ t1 = t2.
Proof.
  intros (n1 & H1 & Hne1) (n2 & H2 & Hne2).
  destruct (Nat.le_ge_cases n1 n2) as [Hle|Hle].
  - pose proof (call_mono _ _ Hle f args t o1 t1 H1 Hne1) as H.
    rewrite H in H2. injection H2 as <- <-. auto.
  - pose proof (call_mono _ _ Hle f args t o2 t2 H2 Hne2) as H.
    rewrite H in H1. injection H1 as <- <-. auto.
Qed.

End Monotone.

(** ** Building *)

Section Build.

Variable ds : list HandlerDecorator.

Lemma add_cons p u us hs reg :
  add p ds (u :: us) (hs, reg) =
  add p ds us
    ((decorateHandler p u ds hs reg).1.2 ++ [(decorateHandler p u ds hs reg).1.1],
     (decorateHandler p u ds hs reg).2).
Proof. reflexivity. Qed.

(** The array after [add]: the handlers already there, marked when one of
    the new handlers is async, followed by the new closures. *)
Lemma add_handlers p us : forall hs reg,
  (add p ds us (hs, reg)).1 =
  (if existsb isFnAsync us then mark_async <$> hs else hs)
    ++ chainOf ds (length hs) us.
Proof.
  induction us as [|u us IH]; intros hs reg.
  - simpl. by rewrite app_nil_r.
  - rewrite add_cons, IH. simpl.
    rewrite length_app. simpl. rewrite Nat.add_1_r.
    assert (Hlen : length (if isFnAsync u then mark_async <$> hs else hs)
                   = length hs).
    { destruct (isFnAsync u); [apply length_fmap|reflexivity]. }
    rewrite Hlen. unfold wrappedOf.
    destruct (isFnAsync u), (existsb isFnAsync us); simpl;
      rewrite ?fmap_app, <- ?list_fmap_compose, <- ?app_assoc; simpl;
      rewrite ?Nat.add_1_r; reflexivity.
Qed.

(** The registry after [add]: a name maps to the last handler that
    declared it, and is left alone when none did. *)
Lemma add_registry p us n : forall hs reg,
  (add p ds us (hs, reg)).2 !! n =
  match last_named_from (length hs) us n with
  | Some j => Some (p, j)
  | None => reg !! n
  end.
Proof.
  induction us as [|u us IH]; intros hs reg.
  - reflexivity.
  - rewrite add_cons, IH. simpl.
    rewrite length_app. simpl. rewrite Nat.add_1_r.
    assert (Hlen : length (if isFnAsync u then mark_async <$> hs else hs)
                   = length hs).
    { destruct (isFnAsync u); [apply length_fmap|reflexivity]. }
    rewrite Hlen.
    destruct (last_named_from (S (length hs)) us n) as [j|]; [reflexivity|].
    destruct (truthy_name (name u)) as [m|] eqn:Em.
    + destruct (decide (Some m = Some n)) as [[= ->]|Hne].
      * apply lookup_insert_eq.
      * apply lookup_insert_ne. congruence.
    + destruct (decide (None = Some n)); [discriminate|reflexivity].
Qed.

Lemma chainOf_lookup us : forall n i,
  chainOf ds n us !! i =
  match drop i us with
  | u :: later => Some (wrappedOf ds (n + i) u later)
  | [] => None
  end.
Proof.
  induction us as [|u us IH]; intros n i.
  - by destruct i.
  - destruct i as [|i]; simpl.
    + by rewrite Nat.add_0_r.
    + rewrite IH. by rewrite Nat.add_succ_r.
Qed.

Lemma chainOf_length us n : length (chainOf ds n us) = length us.
Proof. revert n. induction us; intros; simpl; auto. Qed.

End Build.

Lemma drop_S_of_cons {A} (l : list A) i x later :
  drop i l = x :: later -> drop (S i) l = later.
Proof.
  intros H. replace (S i) with (i + 1) by lia.
  rewrite <- drop_drop, H. reflexivity.
Qed.

Section BuildFactory.

Variable F : Factory.
Variable us : list Handler.

Local Abbreviation p := (length (pipelines F)).
Local Abbreviation ds := (userHandlerDecorators F).

Lemma build_pipelines :
  pipelines (build us F) = pipelines F ++ [chainOf ds 0 us].
Proof.
  unfold build. cbn [pipelines]. rewrite add_handlers.
  by destruct (existsb isFnAsync us).
Qed.

Lemma build_lookup_new i :
  lookupHandler (build us F) p i =
  match drop i us with
  | u :: later => Some (wrappedOf ds i u later)
  | [] => None
  end.
Proof.
  unfold lookupHandler. rewrite build_pipelines.
  rewrite list_lookup_middle by reflexivity. by rewrite chainOf_lookup.
Qed.

Lemma build_lookup_next i u later :
  drop i us = u :: later ->
  lookupHandler (build us F) p (S i) =
  match later with
  | v :: later' => Some (wrappedOf ds (S i) v later')
  | [] => None
  end.
Proof.
  intros H. rewrite build_lookup_new.
  by rewrite (drop_S_of_cons _ _ _ _ H).
Qed.

Lemma build_lookup_old q i :
  q < p -> lookupHandler (build us F) q i = lookupHandler F q i.
Proof.
  intros Hq. unfold lookupHandler. rewrite build_pipelines.
  by rewrite lookup_app_l.
Qed.

Lemma build_registry n :
  globalHandlersByName (build us F) !! n =
  match last_named_from 0 us n with
  | Some j => Some (p, j)
  | None => globalHandlersByName F !! n
  end.
Proof. unfold build. cbn [globalHandlersByName]. by rewrite add_registry. Qed.

Lemma build_first_handler :
  first_handler (build us F) p =
  match us with [] => None | _ :: _ => Some (p, 0) end.
Proof.
  unfold first_handler. rewrite build_pipelines.
  rewrite list_lookup_middle by reflexivity. by destruct us.
Qed.

End BuildFactory.

Lemma built_from_snoc ds uss us :
  built_from ds (uss ++ [us]) = build us (built_from ds uss).
Proof. unfold built_from. by rewrite fold_left_app. Qed.

Lemma built_from_pipelines ds uss :
  userHandlerDecorators (built_from ds uss) = ds
  /\ pipelines (built_from ds uss) = chainOf ds 0 <$> uss.
Proof.
  induction uss as [|us uss IH] using rev_ind; [done|].
  rewrite built_from_snoc. destruct IH as [Hd Hp].
  split; [exact Hd|].
  rewrite build_pipelines, Hd, Hp. by rewrite fmap_app.
Qed.

Lemma last_named_from_Some us n : forall i j,
  last_named_from i us n = Some j ->
  i <= j /\ exists u, us !! (j - i) = Some u /\ registers u n.
Proof.
  induction us as [|u us IH]; intros i j H; [done|]. simpl in H.
  destruct (last_named_from (S i) us n) as [j'|] eqn:E.
  - injection H as ->. destruct (IH _ _ E) as (Hle & v & Hv & Hr).
    split; [lia|]. exists v. split; [|exact Hr].
    replace (j - i) with (S (j - S i)) by lia. exact Hv.
  - destruct (decide (truthy_name (name u) = Some n)) as [Hn|]; [|done].
    injection H as <-. split; [lia|]. exists u.
    rewrite Nat.sub_diag. auto.
Qed.

Lemma registers_name u n : registers u n -> name u = Some n /\ n <> EmptyString.
Proof.
  unfold registers, truthy_name. destruct (name u) as [s|]; [|done].
  destruct (decide (s = EmptyString)); [done|]. intros [= ->]. auto.
Qed.

(** ** Invocation steps *)

Section Steps.

Variable F : Factory.

Lemma call_handler n p i w args :
  lookupHandler F p i = Some w ->
  call (S n) F (FHandler p i) args = handler F (call n F) p i w args.
Proof. intros H. simpl. by rewrite H. Qed.

Lemma call_capture n target args :
  call (S n) F (FCapture target) args = captured F (call n F) target args.
Proof. reflexivity. Qed.

(** A plain synchronous handler that returns [v], followed by a handler
    that carries no async mark: the successor is called on [v] as it is. *)
Lemma plain_sync_forward n p i w nh args v t :
  lookupHandler F p i = Some w ->
  stopPropagationPayload args = None ->
  w_injectToolkit w = false ->
  w_isAsync w = false ->
  lookupHandler F p (nextHandlerIndex w) = Some nh ->
  shouldBeTreatAsAsync (__meta__ nh) = false ->
  asyncFunction (decoratedUserHandler w) = false ->
  body (decoratedUserHandler w) args = Return v ->
  call (S n) F (FHandler p i) args t =
  call n F (FHandler p (nextHandlerIndex w)) [v] (t ++ [(p, i, args)]).
Proof.
  intros Hw Hstop Hinj Hasync Hnh Hmark Hfn Hbody.
  rewrite (call_handler _ _ _ _ _ Hw). unfold handler.
  rewrite Hstop, Hinj, Hnh, Hasync, Hmark.
  unfold bind, invokeUser. rewrite Hfn, Hbody. reflexivity.
Qed.

(** A synchronous handler without toolkit and without successor: its own
    outcome is the outcome of the call. *)
Lemma plain_sync_last n p i w args t :
  lookupHandler F p i = Some w ->
  stopPropagationPayload args = None ->
  w_injectToolkit w = false ->
  lookupHandler F p (nextHandlerIndex w) = None ->
  asyncFunction (decoratedUserHandler w) = false ->
  call (S n) F (FHandler p i) args t =
  exec None (body (decoratedUserHandler w) args) (t ++ [(p, i, args)]).
Proof.
  intros Hw Hstop Hinj Hnh Hfn.
  rewrite (call_handler _ _ _ _ _ Hw). unfold handler.
  rewrite Hstop, Hinj, Hnh. unfold invokeUser. by rewrite Hfn.
Qed.

(** The entry wrapper around a handler that carries no async mark lets a
    normal result through. *)
Lemma captured_sync_normal n p i w args t v t' :
  lookupHandler F p i = Some w ->
  isAsync (__meta__ w) = false ->
  shouldBeTreatAsAsync (__meta__ w) = false ->
  call n F (FHandler p i) args t = (Normal v, t') ->
  call (S n) F (FCapture (Some (p, i))) args t = (Normal v, t').
Proof.
  intros Hw Ha Hm Hcall. rewrite call_capture. unfold captured.
  rewrite Hw, Ha, Hm. unfold try_catch. by rewrite Hcall.
Qed.

End Steps.

(** ** C1: chains of plain synchronous handlers *)

Section PlainChains.

Variable F0 : Factory.
Local Abbreviation ds := (userHandlerDecorators F0).
Local Abbreviation p := (length (pipelines F0)).

Lemma pure_sync_all_sync us fs :
  Forall2 (pure_sync ds) us fs -> existsb isFnAsync us = false.
Proof.
  induction 1 as [|u f us fs (Ha & _) _ IH]; simpl; [reflexivity|].
  by rewrite Ha, IH.
Qed.

Lemma no_stop_head f fs args :
  no_stop f fs args = true -> stopPropagationPayload args = None.
Proof.
  destruct fs; simpl; by destruct (stopPropagationPayload args).
Qed.

(** From index [i] on, the chain computes the composition of the functions
    of its handlers. *)
Lemma plain_chain_from all : forall us fs u f i args t n,
  drop i all = u :: us ->
  Forall2 (pure_sync ds) (u :: us) (f :: fs) ->
  no_stop f fs args = true ->
  call (S (length us) + n) (build all F0) (FHandler p i) args t =
  (Normal (composition f fs args), t ++ invocations p i f fs args).
Proof.
  induction us as [|u' us IH]; intros fs u f i args t n Hdrop Hall Hstop;
    apply Forall2_cons_1 in Hall as [(Ha & Hi & Hf & Hb) Hrest];
    pose proof (no_stop_head _ _ _ Hstop) as Es;
    assert (Hw := build_lookup_new F0 all i); rewrite Hdrop in Hw;
    assert (Hw' := build_lookup_next F0 all i _ _ Hdrop).
  - apply Forall2_nil_inv_l in Hrest as ->.
    change (S (length (@nil Handler)) + n) with (S n).
    rewrite (plain_sync_last _ _ _ _ _ _ _ Hw Es Hi Hw' Hf).
    cbn [decoratedUserHandler wrappedOf]. by rewrite Hb.
  - destruct fs as [|g fs]; [by apply Forall2_nil_inv_r in Hrest|].
    simpl in Hstop. rewrite Es in Hstop.
    pose proof (pure_sync_all_sync _ _ Hrest) as Hsync. simpl in Hsync.
    change (S (length (u' :: us)) + n) with (S (S (length us) + n)).
    rewrite (plain_sync_forward _ _ _ _ _ _ _ (f args) _ Hw Es Hi Ha Hw');
      [| exact Hsync | exact Hf | apply Hb].
    cbn [nextHandlerIndex wrappedOf].
    rewrite (IH fs u' g (S i) [f args] _ n
               (drop_S_of_cons _ _ _ _ Hdrop) Hrest Hstop).
    simpl. by rewrite <- app_assoc.
Qed.

End PlainChains.

Lemma ends_with_of_call fuel F f args t o t' :
  call fuel F f args t = (o, t') -> o <> OutOfFuel -> ends_with F f args t o t'.
Proof. intros H Hne. exists fuel. auto. Qed.

(** C1, as amended: a non-empty chain of plain synchronous handlers, built by
    [entrySequenceOf] or [sequenceOf], returns the composition of their
    functions and runs each of them once in order, provided neither the first
    argument nor a value passed from one handler to the next is a
    stop-propagation value. *)
Theorem plain_sync_chain_is_composition F0 u us f fs args t :
  Forall2 (pure_sync (userHandlerDecorators F0)) (u :: us) (f :: fs) ->
  no_stop f fs args = true ->
  let result := Normal (composition f fs args) in
  let t' := t ++ invocations (length (pipelines F0)) 0 f fs args in
  ends_with (entrySequenceOf (u :: us) F0).2 (entrySequenceOf (u :: us) F0).1
    args t result t'
  /\ exists h, (sequenceOf (u :: us) F0).1 = Some h
       /\ ends_with (sequenceOf (u :: us) F0).2 h args t result t'.
Proof.
  intros Hall Hstop result t'.
  pose proof (plain_chain_from F0 (u :: us) us fs u f 0 args t 0
                eq_refl Hall Hstop) as Hcall.
  pose proof (build_first_handler F0 (u :: us)) as Hfirst.
  pose proof (build_lookup_new F0 (u :: us) 0) as Hw. simpl drop in Hw.
  pose proof (pure_sync_all_sync _ _ _ Hall) as Hsync. simpl in Hsync.
  apply orb_false_iff in Hsync as [Hu Hus].
  split.
  - unfold entrySequenceOf. cbn [fst snd]. rewrite Hfirst.
    apply (ends_with_of_call (S (S (length us) + 0))); [|discriminate].
    apply (captured_sync_normal _ _ _ _ _ _ _ _ _ Hw); simpl;
      [exact Hu | by rewrite Hu, Hus | exact Hcall].
  - unfold sequenceOf. cbn [fst snd]. rewrite Hfirst.
    eexists. split; [reflexivity|].
    apply (ends_with_of_call (S (length us) + 0)); [exact Hcall|discriminate].
Qed.

Lemma plain_sync_chain_is_composition_witness :
  ends_with (entrySequenceOf [plain first_arg; plain (fun _ => VNum 7)] (daisugi [])).2
    (entrySequenceOf [plain first_arg; plain (fun _ => VNum 7)] (daisugi [])).1
    [VNum 3] [] (Normal (VNum 7)) [(0, 0, [VNum 3]); (0, 1, [VNum 3])].
Proof.
  refine (proj1 (plain_sync_chain_is_composition (daisugi [])
            (plain first_arg) [plain (fun _ => VNum 7)]
            first_arg [fun _ => VNum 7] [VNum 3] [] _ _)).
  - repeat constructor.
  - reflexivity.
Defined.

(** C1 as stated fails: both handlers are plain and synchronous, the first
    returns a stop-propagation value, the composition is 7 and the entry
    point returns 1 without running the second handler. *)
Lemma stop_value_breaks_composition :
  Forall2 (pure_sync []) stop_then_seven
    [fun _ => stopPropagationWith (VNum 1); fun _ => VNum 7]
  /\ composition (fun _ => stopPropagationWith (VNum 1)) [fun _ => VNum 7]
       [VNum 0] = VNum 7
  /\ ends_with (entrySequenceOf stop_then_seven (daisugi [])).2
       (entrySequenceOf stop_then_seven (daisugi [])).1
       [VNum 0] [] (Normal (VNum 1)) [(0, 0, [VNum 0])]
  /\ ~ exists t',
       ends_with (entrySequenceOf stop_then_seven (daisugi [])).2
         (entrySequenceOf stop_then_seven (daisugi [])).1
         [VNum 0] []
         (Normal (composition (fun _ => stopPropagationWith (VNum 1))
                    [fun _ => VNum 7] [VNum 0])) t'.
Proof.
  assert (Hrun : ends_with (entrySequenceOf stop_then_seven (daisugi [])).2
       (entrySequenceOf stop_then_seven (daisugi [])).1
       [VNum 0] [] (Normal (VNum 1)) [(0, 0, [VNum 0])]).
  { apply (ends_with_of_call 3); [vm_compute; reflexivity|discriminate]. }
  split; [repeat constructor|]. split; [reflexivity|]. split; [exact Hrun|].
  intros [t' H]. destruct (ends_with_det _ _ _ _ _ _ _ _ Hrun H) as [Ho _].
  discriminate.
Qed.

(** ** C2: what the entry wrapper interprets *)

Lemma is_promise_resolve v : is_promise (promise_resolve v) = true.
Proof. by destruct v. Qed.

Lemma promise_resolve_promise v :
  is_promise v = true -> promise_resolve v = v.
Proof. unfold promise_resolve. by intros ->. Qed.

(** The entry wrapper, one call deep: what it makes of the outcome of the
    handler it wraps. *)
Lemma captured_interprets F p i w n args t t' :
  lookupHandler F p i = Some w ->
  let inner := call n F (FHandler p i) args t in
  let entry := call (S n) F (decorateWithExceptionCapture (Some (p, i))) args t in
  (isAsync (__meta__ w) = false -> shouldBeTreatAsAsync (__meta__ w) = false ->
     (forall R, inner = (Thrown (AbortException R), t') -> entry = (Normal R, t'))
     /\ (forall h A, inner = (Thrown (JumpException h A), t') ->
           entry = call n F h A t')
     /\ (forall R, inner = (Thrown (StopException R), t') ->
           entry = (Thrown (StopException R), t')))
  /\ (isAsync (__meta__ w) || shouldBeTreatAsAsync (__meta__ w) = true ->
     (forall R, inner = (Normal (VRejected (AbortException R)), t') ->
        entry = (Normal (promise_resolve R), t'))
     /\ (forall h A, inner = (Normal (VRejected (JumpException h A)), t') ->
           entry = settle (call n F h A) t')
     /\ (forall R, inner = (Normal (VRejected (StopException R)), t') ->
           entry = (Normal (VRejected (StopException R)), t'))).
Proof.
  intros Hw inner entry. subst inner entry.
  unfold decorateWithExceptionCapture. rewrite call_capture.
  unfold captured. rewrite Hw. split.
  - intros -> ->. unfold try_catch.
    repeat split; intros; by rewrite H.
  - intros Hmode. unfold bind.
    destruct (isAsync (__meta__ w)); [|simpl in Hmode; rewrite Hmode];
      repeat split; intros; by rewrite H.
Qed.


(** ** No signal reaches the caller of an entry point *)

Lemma clean_may_return v : clean v = true -> may_return v = true.
Proof. unfold may_return. by intros ->. Qed.

Lemma clean_may_throw e :
  clean e = true -> is_signal e = false -> may_throw e = true.
Proof. unfold may_throw. intros -> ->. apply orb_true_r. Qed.

Lemma clean_targets_guarded F v : clean v = true -> targets_guarded F v.
Proof.
  destruct v as [| | | | | |r|h a|r|v|e]; simpl; try done.
  destruct e as [| | | | | |r|[|tg] a|r|v|e]; simpl; done.
Qed.

Lemma clean_resolve v : clean v = true -> clean (promise_resolve v) = true.
Proof. unfold promise_resolve. by destruct (is_promise v). Qed.

Lemma may_return_plain v :
  is_promise v = false -> may_return v = true -> clean v = true.
Proof.
  unfold may_return. destruct v; try discriminate; intros _ H;
    by rewrite orb_false_r in H.
Qed.

Lemma may_return_fulfilled v :
  may_return (VFulfilled v) = true -> clean v = true.
Proof. unfold may_return. simpl. by rewrite orb_false_r. Qed.

Lemma may_return_resolve v :
  may_return v = true -> may_return (promise_resolve v) = true.
Proof.
  unfold promise_resolve. destruct (is_promise v) eqn:E; [done|].
  intros H. apply clean_may_return. simpl. by apply may_return_plain.
Qed.

Lemma targets_guarded_resolve F v :
  targets_guarded F v -> targets_guarded F (promise_resolve v).
Proof. unfold promise_resolve. by destruct (is_promise v). Qed.

Lemma may_throw_rejected e :
  may_return (VRejected e) = may_throw e.
Proof.
  unfold may_return, may_throw. simpl.
  destruct (is_signal e), (clean e), (engine_signal e); reflexivity.
Qed.

Lemma targets_guarded_rejected F e :
  targets_guarded F e -> targets_guarded F (VRejected e).
Proof. by destruct e as [| | | | | |r|[|tg] a|r|v|e]. Qed.

Lemma chain_outcome_weaken F b o :
  chain_outcome F false o -> chain_outcome F b o.
Proof.
  destruct o as [v|e|]; simpl; try done. intros [H G]. split; [|exact G].
  destruct b; [by apply clean_may_return|exact H].
Qed.

Lemma chain_outcome_mark F b b' o :
  chain_outcome F b o -> chain_outcome F (b' || b) o.
Proof.
  destruct b; [by rewrite orb_true_r|]. intros H.
  by apply chain_outcome_weaken.
Qed.

(** The promise made from a computation whose outcome is one of a chain:
    never thrown, and one a chain may return. *)
Lemma settle_outcome F b m t o t' :
  (forall o1 t1, m t = (o1, t1) -> chain_outcome F b o1) ->
  settle m t = (o, t') ->
  chain_outcome F true o /\ (forall e, o <> Thrown e)
  /\ (forall v, o = Normal v -> is_promise v = true).
Proof.
  intros Hm. unfold settle. destruct (m t) as [[v|e|] t1] eqn:E;
    intros [= <- <-]; pose proof (Hm _ _ eq_refl) as H; simpl in H.
  - destruct H as [H G]. split; [|split; [done|]].
    + split; [|by apply targets_guarded_resolve].
      apply may_return_resolve. destruct b; [exact H|by apply clean_may_return].
    + intros ? [= <-]. apply is_promise_resolve.
  - destruct H as [H G]. split; [|split; [done|]].
    + split; [by rewrite may_throw_rejected|by apply targets_guarded_rejected].
    + by intros ? [= <-].
  - split; [done|]. split; [done|discriminate].
Qed.

Lemma head_clean args :
  forallb clean args = true -> clean (default VUndefined (head args)) = true.
Proof. destruct args as [|a args]; simpl; [done|]. by intros [? _]%andb_true_iff. Qed.

Lemma stop_payload_clean args r :
  forallb clean args = true -> stopPropagationPayload args = Some r ->
  clean r = true.
Proof.
  destruct args as [|a args]; [done|]. simpl.
  intros [Ha _]%andb_true_iff. destruct a; try discriminate.
  by intros [= <-].
Qed.

Section NoLeak.

Variable F : Factory.
Hypothesis Ftame : tame_factory F.
Variable callee : fnref -> list value -> M.
Hypothesis callee_chain : forall p i w args t o t',
  lookupHandler F p i = Some w -> forallb clean args = true ->
  callee (FHandler p i) args t = (o, t') ->
  chain_outcome F (shouldBeTreatAsAsync (__meta__ w)) o
  /\ (never_throws w -> forall e, o <> Thrown e).
Hypothesis callee_wrapper : forall target args t o t',
  target_guarded F target -> forallb clean args = true ->
  callee (FCapture target) args t = (o, t') -> wrapper_outcome o.

Lemma registry_target_guarded n :
  target_guarded F (globalHandlersByName F !! n).
Proof.
  destruct (globalHandlersByName F !! n) as [[p i]|] eqn:E; [|done].
  destruct (proj2 Ftame _ _ _ E) as (w & Hw & Hg).
  intros w' Hw'. rewrite Hw in Hw'. by injection Hw' as <-.
Qed.

(** A body run without toolkit. *)
Lemma exec_plain_outcome c :
  well_behaved (fun _ => False) c ->
  forall t o t', exec None c t = (o, t') -> chain_outcome F false o.
Proof.
  destruct c as [v|x|r|r|a k|k| |n a]; simpl; intros Hc t o t' [= <- <-];
    simpl; try done.
  - destruct Hc as [Hc|[]]. split; [exact Hc|by apply clean_targets_guarded].
  - destruct Hc as [Hc Hs]. split; [by apply clean_may_throw|].
    by apply clean_targets_guarded.
  - unfold may_throw. simpl. by rewrite Hc.
Qed.

(** A body run with the toolkit of the closure [w], in a chain whose
    successor hands back outcomes of a chain. *)
Lemma exec_toolkit_outcome b p w args0 :
  forallb clean args0 = true ->
  (forall a t o t', forallb clean a = true ->
     nextWith (makeToolkit F callee p w args0) a t = (o, t') ->
     chain_outcome F b o) ->
  forall c received,
    (forall x, received x -> chain_outcome F b (Normal x)) ->
    well_behaved received c ->
    forall t o t',
      exec (Some (makeToolkit F callee p w args0)) c t = (o, t') ->
      chain_outcome F b o.
Proof.
  intros Hargs Hnext.
  induction c as [v|x|r|r|a k IH|k IH| |n a]; intros received Hrec Hc t o t';
    cbn [exec].
  - intros [= <- <-]. destruct Hc as [Hc|Hc]; [|by apply Hrec].
    apply chain_outcome_weaken. split; [exact Hc|by apply clean_targets_guarded].
  - intros [= <- <-]. destruct Hc as [Hc Hs].
    split; [by apply clean_may_throw|by apply clean_targets_guarded].
  - intros [= <- <-]. simpl in *. unfold may_throw. simpl. by rewrite Hc.
  - intros [= <- <-]. simpl in *. unfold may_throw. simpl. by rewrite Hc.
  - destruct Hc as [Ha Hk]. unfold bind.
    destruct (nextWith _ a t) as [[v|x|] t1] eqn:E.
    + pose proof (Hnext _ _ _ _ Ha E) as Hv.
      apply (IH v (fun x => received x \/ x = v)).
      * intros x [Hx| ->]; [by apply Hrec|exact Hv].
      * apply Hk. destruct Hv as [Hv _].
        destruct b; [exact Hv|by apply clean_may_return].
    + intros [= <- <-]. apply (Hnext _ _ _ _ Ha E).
    + by intros [= <- <-].
  - unfold bind.
    change (next (makeToolkit F callee p w args0))
      with (nextWith (makeToolkit F callee p w args0) args0).
    destruct (nextWith _ args0 t) as [[v|x|] t1] eqn:E.
    + pose proof (Hnext _ _ _ _ Hargs E) as Hv.
      apply (IH v (fun x => received x \/ x = v)).
      * intros x [Hx| ->]; [by apply Hrec|exact Hv].
      * apply Hc. destruct Hv as [Hv _].
        destruct b; [exact Hv|by apply clean_may_return].
    + intros [= <- <-]. apply (Hnext _ _ _ _ Hargs E).
    + by intros [= <- <-].
  - intros [= <- <-]. simpl. unfold may_throw. simpl.
    by rewrite (head_clean _ Hargs).
  - intros [= <- <-]. simpl in *. unfold may_throw. simpl. rewrite Hc.
    split; [done|]. apply registry_target_guarded.
Qed.

(** What the [handler] closure hands back. *)
Lemma handler_outcome p i w args t o t' :
  lookupHandler F p i = Some w -> forallb clean args = true ->
  handler F callee p i w args t = (o, t') ->
  chain_outcome F (shouldBeTreatAsAsync (__meta__ w)) o
  /\ (never_throws w -> forall e, o <> Thrown e).
Proof.
  intros Hw Hargs.
  destruct (proj1 Ftame _ _ _ Hw) as (Hnext & Hwa & Hkind & Hmark & Hbody & _).
  specialize (Hbody args Hargs).
  assert (Hsucc : forall a t0 o0 t1, forallb clean a = true ->
    nextWith (makeToolkit F callee p w args) a t0 = (o0, t1) ->
    chain_outcome F (shouldBeTreatAsAsync (__meta__ w)) o0).
  { intros a t0 o0 t1 Ha. cbn [nextWith makeToolkit]. rewrite Hnext, Hmark.
    unfold next_marked.
    destruct (lookupHandler F p (S i)) as [nh|] eqn:Enh.
    - intros Hc. apply chain_outcome_mark.
      apply (proj1 (callee_chain _ _ _ _ _ _ _ Enh Ha Hc)).
    - intros [= <- <-]. apply chain_outcome_weaken. by split. }
  unfold handler.
  destruct (stopPropagationPayload args) as [r|] eqn:Es.
  { intros [= <- <-]. pose proof (stop_payload_clean _ _ Hargs Es) as Hr.
    split; [|done]. apply chain_outcome_weaken.
    split; [exact Hr|by apply clean_targets_guarded]. }
  destruct (w_injectToolkit w) eqn:Einj.
  { unfold invokeUser. rewrite Hkind.
    destruct (isAsync (__meta__ w)) eqn:Ea.
    - cbn [orb] in Hmark. rewrite Hmark in Hsucc |- *.
      intros Hs.
      destruct (settle_outcome F true _ _ _ _
                  (fun o1 t1 H =>
                     exec_toolkit_outcome true p w args Hargs Hsucc
                       _ (fun _ => False) (fun x H0 => False_ind _ H0)
                       Hbody _ _ _ H)
                  Hs) as (Ho & Hne & _).
      split; [exact Ho|]. intros _. exact Hne.
    - intros He. split.
      + refine (exec_toolkit_outcome _ p w args Hargs Hsucc _ (fun _ => False)
                  _ Hbody _ _ _ He). done.
      + intros [Hc|(_ & Hc & _)]; congruence. }
  rewrite Hnext.
  destruct (lookupHandler F p (S i)) as [nh|] eqn:Enh.
  - rewrite Hwa. unfold bind, invokeUser. rewrite Hkind.
    assert (Hnm : next_marked F p (S i) = shouldBeTreatAsAsync (__meta__ nh))
      by (unfold next_marked; by rewrite Enh).
    assert (Hthen : forall v t0 o0 t1,
      clean v = true ->
      settle (callee (FHandler p (S i)) [v]) t0 = (o0, t1) ->
      chain_outcome F true o0 /\ forall e, o0 <> Thrown e).
    { intros v t0 o0 t1 Hv Hs.
      destruct (settle_outcome F (shouldBeTreatAsAsync (__meta__ nh)) _ _ _ _
                  (fun o1 t2 H =>
                     proj1 (callee_chain _ _ _ [v] _ _ _ Enh
                              (eq_trans (andb_true_r _) Hv) H)) Hs)
        as (Ho & Hne & _). by split. }
    destruct (isAsync (__meta__ w)) eqn:Ea.
    + rewrite Hmark. cbn [orb].
      destruct (settle (exec None (body (decoratedUserHandler w) args))
                  (t ++ [(p, i, args)])) as [[r|x|] t1] eqn:Er.
      * destruct (settle_outcome F false _ _ _ _
                    (fun o1 t2 H => exec_plain_outcome _ Hbody _ _ _ H) Er)
          as ((Hr & Gr) & _ & Hp).
        specialize (Hp r eq_refl).
        destruct r as [| | | | | |?|? ?|?|v|e]; try discriminate; simpl.
        -- intros Hs.
           destruct (Hthen v _ _ _ (may_return_fulfilled _ Hr) Hs) as [Ho Hne].
           split; [exact Ho|]. intros _. exact Hne.
        -- intros [= <- <-]. split; [by split|done].
      * destruct (settle_outcome F false _ _ _ _
                    (fun o1 t2 H => exec_plain_outcome _ Hbody _ _ _ H) Er)
          as (_ & Hne & _). by destruct (Hne x).
      * intros [= <- <-]. by split.
    + destruct (shouldBeTreatAsAsync (__meta__ nh)) eqn:Em.
      * rewrite Hmark, Hnm. cbn [orb].
        destruct (exec None (body (decoratedUserHandler w) args)
                    (t ++ [(p, i, args)])) as [[r|x|] t1] eqn:Er.
        -- pose proof (exec_plain_outcome _ Hbody _ _ _ Er) as [Hr Gr].
           simpl in Hr. pose proof (clean_resolve _ Hr) as Hr'.
           pose proof (is_promise_resolve r) as Hp.
           destruct (promise_resolve r) as [| | | | | |?|? ?|?|v|e];
             try discriminate; simpl.
           ++ intros Hs. destruct (Hthen v _ _ _ Hr' Hs) as [Ho Hne].
              split; [exact Ho|]. intros _. exact Hne.
           ++ intros [= <- <-]. split; [|done].
              split; [by apply clean_may_return|by apply clean_targets_guarded].
        -- intros [= <- <-]. split.
           ++ apply (exec_plain_outcome _ Hbody _ _ _ Er).
           ++ intros [Hc|(_ & _ & Hc)]; [congruence|].
              destruct (Hc args) as [v Hv]. rewrite Hv in Er. discriminate.
        -- intros [= <- <-]. by split.
      * rewrite Hmark, Hnm. cbn [orb].
        destruct (exec None (body (decoratedUserHandler w) args)
                    (t ++ [(p, i, args)])) as [[r|x|] t1] eqn:Er.
        -- pose proof (exec_plain_outcome _ Hbody _ _ _ Er) as [Hr Gr].
           simpl in Hr. intros Hc. split.
           ++ pose proof (proj1 (callee_chain _ _ _ [r] _ _ _ Enh
                                   (eq_trans (andb_true_r _) Hr) Hc)) as Ho.
              by rewrite Em in Ho.
           ++ intros [Hx|(Hx & _)];
              [congruence|rewrite Hmark, Hnm in Hx; simpl in Hx; discriminate].
        -- intros [= <- <-]. split.
           ++ apply (exec_plain_outcome _ Hbody _ _ _ Er).
           ++ intros [Hx|(Hx & _)];
              [congruence|rewrite Hmark, Hnm in Hx; simpl in Hx; discriminate].
        -- intros [= <- <-]. by split.
  - assert (Hnm : next_marked F p (S i) = false)
      by (unfold next_marked; by rewrite Enh).
    rewrite Hmark, Hnm, orb_false_r. unfold invokeUser. rewrite Hkind.
    destruct (isAsync (__meta__ w)) eqn:Ea.
    + intros Hs.
      destruct (settle_outcome F false _ _ _ _
                  (fun o1 t2 H => exec_plain_outcome _ Hbody _ _ _ H) Hs)
        as (Ho & Hne & _).
      split; [exact Ho|]. intros _. exact Hne.
    + intros He. split; [apply (exec_plain_outcome _ Hbody _ _ _ He)|].
      intros [Hx|(Hx & _)];
              [congruence|rewrite Hmark, Hnm in Hx; simpl in Hx; discriminate].
Qed.

(** What [captureException] makes of a value thrown by a chain. *)
Lemma captureException_outcome e t o t' :
  may_throw e = true -> targets_guarded F e ->
  captureException callee e t = (o, t') -> wrapper_outcome o.
Proof.
  unfold may_throw. intros He Hg.
  destruct e as [| | | | | |r|[q k|target] a|r|v|x]; simpl in *;
    try discriminate;
    try (intros [= <- <-]; simpl;
         rewrite ?orb_false_l, ?orb_false_r, ?andb_true_r, ?andb_false_r in He;
         try done; by rewrite He).
  rewrite orb_false_r in He. intros Hc.
  apply (callee_wrapper _ _ _ _ _ Hg He Hc).
Qed.

(** The promise a wrapper makes of a rejection. *)
Lemma caught_outcome r t o t' :
  may_return r = true -> targets_guarded F r ->
  promise_catch r (captureException callee) t = (o, t') -> wrapper_outcome o.
Proof.
  intros Hr Hg. destruct r as [| | | | | |?|? ?|?|v|e]; simpl;
    try (intros [= <- <-]; by simpl).
  - intros [= <- <-]. simpl. by apply may_return_fulfilled.
  - rewrite may_throw_rejected in Hr.
    assert (Hg' : targets_guarded F e).
    { destruct e as [| | | | | |?|[|?] ?|?|?|x]; try done.
      apply clean_targets_guarded. unfold may_throw in Hr. simpl in Hr.
      by rewrite andb_true_r in Hr. }
    unfold settle.
    destruct (captureException callee e t) as [[v|x|] t1] eqn:Ec;
      intros [= <- <-]; pose proof (captureException_outcome _ _ _ _ Hr Hg' Ec)
        as Ho; simpl in *.
    + by apply clean_resolve.
    + destruct Ho as [-> ->]. reflexivity.
    + done.
Qed.

(** What the wrapper of a guarded target hands back. *)
Lemma captured_outcome target args t o t' :
  target_guarded F target -> forallb clean args = true ->
  captured F callee target args t = (o, t') -> wrapper_outcome o.
Proof.
  intros Hg Hargs. unfold captured.
  destruct target as [[p i]|]; [|by intros [= <- <-]].
  destruct (lookupHandler F p i) as [w|] eqn:Hw; [|by intros [= <- <-]].
  specialize (Hg w Hw).
  destruct (proj1 Ftame _ _ _ Hw) as (_ & _ & _ & Hmark & _ & _).
  destruct (isAsync (__meta__ w)) eqn:Ea.
  - unfold bind.
    destruct (callee (FHandler p i) args t) as [[r|x|] t1] eqn:Ec.
    + destruct (callee_chain _ _ _ _ _ _ _ Hw Hargs Ec) as [[Hr Gr] _].
      rewrite Hmark in Hr. cbn [orb] in Hr. by apply caught_outcome.
    + destruct (callee_chain _ _ _ _ _ _ _ Hw Hargs Ec) as [_ Hne].
      by destruct (Hne (or_introl Ea) x).
    + by intros [= <- <-].
  - destruct (shouldBeTreatAsAsync (__meta__ w)) eqn:Em.
    + unfold bind.
      destruct (callee (FHandler p i) args t) as [[r|x|] t1] eqn:Ec.
      * destruct (callee_chain _ _ _ _ _ _ _ Hw Hargs Ec) as [[Hr Gr] _].
        rewrite Em in Hr.
        apply caught_outcome;
          [by apply may_return_resolve|by apply targets_guarded_resolve].
      * destruct (callee_chain _ _ _ _ _ _ _ Hw Hargs Ec) as [_ Hne].
        destruct (Hg Ea Em) as [Hi Hb].
        by destruct (Hne (or_intror (conj Em (conj Hi Hb))) x).
      * by intros [= <- <-].
    + unfold try_catch.
      destruct (callee (FHandler p i) args t) as [[r|x|] t1] eqn:Ec.
      * destruct (callee_chain _ _ _ _ _ _ _ Hw Hargs Ec) as [[Hr Gr] _].
        rewrite Em in Hr. by intros [= <- <-].
      * destruct (callee_chain _ _ _ _ _ _ _ Hw Hargs Ec) as [[Hx Gx] _].
        by apply captureException_outcome.
      * by intros [= <- <-].
Qed.

End NoLeak.

(** Whatever the fuel, a chain of a tame factory hands back what a chain
    may, and the wrapper of a guarded target no signal. *)
Lemma call_outcome F :
  tame_factory F ->
  forall n,
    (forall p i w args t o t',
       lookupHandler F p i = Some w -> forallb clean args = true ->
       call n F (FHandler p i) args t = (o, t') ->
       chain_outcome F (shouldBeTreatAsAsync (__meta__ w)) o
       /\ (never_throws w -> forall e, o <> Thrown e))
    /\ (forall target args t o t',
          target_guarded F target -> forallb clean args = true ->
          call n F (FCapture target) args t = (o, t') -> wrapper_outcome o).
Proof.
  intros Ftame. induction n as [|n [IHh IHc]].
  - split; intros; simpl in *; unfold ret in *; simplify_eq; by simpl.
  - split.
    + intros p i w args t o t' Hw Hargs. rewrite (call_handler _ _ _ _ _ _ Hw).
      by apply handler_outcome.
    + intros target args t o t' Hg Hargs. rewrite call_capture.
      by apply captured_outcome.
Qed.

Lemma wrapper_outcome_no_signal o :
  wrapper_outcome o -> raises_signal o = false.
Proof.
  destruct o as [v|e|]; simpl; [|by intros [_ ?]|done].
  destruct v; try done. simpl. intros H.
  apply andb_true_iff in H as [H _]. by apply negb_true_iff in H.
Qed.
(** The factories a program reaches from tame chains are tame. *)
Lemma tame_factory_daisugi ds : tame_factory (daisugi ds).
Proof.
  split.
  - intros p i w H. by destruct p.
  - intros n p i H. simpl in H. by rewrite lookup_empty in H.
Qed.

Lemma no_throw_under_mark_lookup ds us : forall first j u,
  no_throw_under_mark ds first us ->
  us !! j = Some u ->
  (j = 0 /\ first = true) \/ is_Some (truthy_name (name u)) ->
  isFnAsync u = false ->
  existsb isFnAsync (drop (S j) us) = true ->
  quiet ds u.
Proof.
  induction us as [|x us IH]; intros first j u Hno Hj Hwrap Ha Hlater;
    [done|].
  destruct Hno as [Hx Hno]. destruct j as [|j].
  - injection Hj as ->. apply Hx; [|exact Ha|exact Hlater].
    destruct Hwrap as [[_ ->]|Hn]; auto.
  - apply (IH false j u Hno Hj); [|exact Ha|exact Hlater].
    destruct Hwrap as [[? _]|Hn]; [done|by right].
Qed.

Lemma existsb_later_next_marked F us i u later :
  drop i us = u :: later ->
  next_marked (build us F) (length (pipelines F)) (S i)
  = existsb isFnAsync later.
Proof.
  intros Hd. unfold next_marked.
  rewrite (build_lookup_next _ _ _ _ _ Hd). by destruct later.
Qed.

Lemma tame_factory_build F us :
  tame_factory F ->
  tame_chain (userHandlerDecorators F) us ->
  tame_factory (build us F).
Proof.
  intros [Hh Hr] [Hus Hno]. split.
  - intros p i w Hw.
    destruct (Nat.lt_trichotomy p (length (pipelines F))) as [Hlt|[->|Hgt]].
    + rewrite build_lookup_old in Hw by exact Hlt.
      unfold next_marked. rewrite build_lookup_old by exact Hlt.
      apply (Hh p i w Hw).
    + rewrite build_lookup_new in Hw.
      destruct (drop i us) as [|u later] eqn:Ed; [discriminate|].
      injection Hw as <-.
      rewrite (existsb_later_next_marked _ _ _ _ _ Ed).
      assert (Hu : us !! i = Some u).
      { rewrite <- (Nat.add_0_r i), <- lookup_drop, Ed. reflexivity. }
      destruct (proj1 (Forall_forall _ _) Hus u
                  (list_elem_of_lookup_2 _ _ _ Hu)) as [Hkind Hbody].
      split; [reflexivity|]. split; [reflexivity|]. split; [exact Hkind|].
      split; [reflexivity|]. split; [exact Hbody|].
      intros -> Ha Hm. simpl in Ha, Hm. rewrite Ha in Hm. simpl in Hm.
      rewrite <- (drop_S_of_cons _ _ _ _ Ed) in Hm.
      change (quiet (userHandlerDecorators F) u).
      apply (no_throw_under_mark_lookup _ _ true 0 u Hno Hu); auto.
    + unfold lookupHandler in Hw. rewrite build_pipelines in Hw.
      rewrite lookup_ge_None_2 in Hw; [discriminate|].
      rewrite length_app. simpl. lia.
  - intros n p i Hn. rewrite build_registry in Hn.
    destruct (last_named_from 0 us n) as [j|] eqn:E.
    + injection Hn as <- <-.
      destruct (last_named_from_Some _ _ _ _ E) as (_ & u & Hu & Hreg).
      rewrite Nat.sub_0_r in Hu.
      rewrite build_lookup_new, (drop_S _ _ _ Hu).
      eexists. split; [reflexivity|].
      intros Ha Hm. simpl in Ha, Hm. rewrite Ha in Hm. simpl in Hm.
      change (quiet (userHandlerDecorators F) u).
      apply (no_throw_under_mark_lookup _ _ true j u Hno Hu);
        [|exact Ha|exact Hm].
      right. unfold registers in Hreg. by rewrite Hreg.
    + destruct (Hr n p i Hn) as (w & Hw & Hg). exists w. split; [|exact Hg].
      rewrite build_lookup_old; [exact Hw|].
      unfold lookupHandler in Hw.
      destruct (pipelines F !! p) as [hs|] eqn:Ep; [|discriminate].
      by apply lookup_lt_Some in Ep.
Qed.

Lemma tame_factory_built_from ds uss :
  Forall (tame_chain ds) uss -> tame_factory (built_from ds uss).
Proof.
  induction uss as [|us uss IH] using rev_ind; intros Huss.
  - apply tame_factory_daisugi.
  - apply Forall_app in Huss as [Huss Hus]. apply Forall_cons in Hus as [Hus _].
    rewrite built_from_snoc. apply tame_factory_build; [by apply IH|].
    by rewrite (proj1 (built_from_pipelines ds uss)).
Qed.

(** The entry point of a tame chain, built in a factory of tame chains and
    called on clean arguments, hands no signal to its caller. *)
Lemma entry_raises_no_signal ds uss us args t o t' :
  Forall (tame_chain ds) uss -> tame_chain ds us ->
  forallb clean args = true ->
  ends_with (entrySequenceOf us (built_from ds uss)).2
    (entrySequenceOf us (built_from ds uss)).1 args t o t' ->
  raises_signal o = false.
Proof.
  intros Huss Hus Hargs (n & Hcall & _).
  assert (Ftame : tame_factory (build us (built_from ds uss))).
  { apply tame_factory_build; [by apply tame_factory_built_from|].
    by rewrite (proj1 (built_from_pipelines ds uss)). }
  apply wrapper_outcome_no_signal.
  refine (proj2 (call_outcome _ Ftame n) _ _ _ _ _ _ Hargs Hcall).
  cbn [entrySequenceOf fst decorateWithExceptionCapture].
  rewrite build_first_handler. destruct us as [|u us']; [done|].
  intros w Hw. apply (proj1 Ftame _ _ _ Hw). reflexivity.
Qed.


(** ** C3: async contagion *)

Lemma existsb_drop_later (us : list Handler) j k uk :
  us !! k = Some uk -> isFnAsync uk = true -> j <= k ->
  existsb isFnAsync (drop j us) = true.
Proof.
  intros Hk Ha Hjk. apply existsb_exists. exists uk. split; [|exact Ha].
  apply list_elem_of_In, list_elem_of_lookup. exists (k - j).
  rewrite lookup_drop. by replace (j + (k - j)) with k by lia.
Qed.

Lemma lookup_drop_cons {A} (l : list A) j x :
  l !! j = Some x -> drop j l = x :: drop (S j) l.
Proof. intros H. by rewrite (drop_S _ _ _ H). Qed.

(** Every handler before an async one carries the mark. *)
Lemma mark_before_async F0 us k uk j uj :
  us !! k = Some uk -> isFnAsync uk = true -> j < k -> us !! j = Some uj ->
  lookupHandler (build us F0) (length (pipelines F0)) j =
    Some (wrappedOf (userHandlerDecorators F0) j uj (drop (S j) us))
  /\ shouldBeTreatAsAsync
       (__meta__ (wrappedOf (userHandlerDecorators F0) j uj (drop (S j) us)))
     = true.
Proof.
  intros Hk Ha Hjk Hj. split.
  - rewrite build_lookup_new. by rewrite (lookup_drop_cons _ _ _ Hj).
  - simpl. rewrite (existsb_drop_later us (S j) k uk Hk Ha) by lia.
    apply orb_true_r.
Qed.

Lemma settle_is_promise m t v t' :
  settle m t = (Normal v, t') -> is_promise v = true.
Proof.
  unfold settle. destruct (m t) as [[x|e|] t1]; intros [= <- <-];
    auto using is_promise_resolve.
Qed.

(** C3, as amended: after a build, every handler before an async one carries
    the treat-as-async mark; when such a handler asks for no toolkit (and its
    decorated form is a function of the same kind), its invocation on
    arguments that do not start with a stop-propagation value awaits its
    result and calls the successor on it as a continuation. *)
Theorem async_contagion F0 us k uk j uj :
  us !! k = Some uk -> isFnAsync uk = true -> j < k -> us !! j = Some uj ->
  let F := build us F0 in
  let p := length (pipelines F0) in
  exists w,
    lookupHandler F p j = Some w
    /\ shouldBeTreatAsAsync (__meta__ w) = true
    /\ (injectToolkit uj = false ->
        asyncFunction (decorate (userHandlerDecorators F0) uj) = isFnAsync uj ->
        forall n args t,
          stopPropagationPayload args = None ->
          call (S n) F (FHandler p j) args t =
          awaited_then_successor F (call n F) p j w args t).
Proof.
  intros Hk Ha Hjk Hj F p. subst F p.
  destruct (mark_before_async F0 us k uk j uj Hk Ha Hjk Hj) as [Hw Hmark].
  eexists. split; [exact Hw|]. split; [exact Hmark|].
  intros Hinj Hkind n args t Hstop.
  rewrite (call_handler _ _ _ _ _ _ Hw). unfold handler, awaited_then_successor.
  rewrite Hstop. cbn [w_injectToolkit w_isAsync nextHandlerIndex wrappedOf
                      decoratedUserHandler]. rewrite Hinj.
  assert (Hnext : exists un, us !! S j = Some un) by
    (apply lookup_lt_is_Some; apply lookup_lt_Some in Hk; lia).
  destruct Hnext as [un Hn].
  pose proof (build_lookup_next F0 us j uj _ (lookup_drop_cons us j uj Hj)) as Hw'.
  rewrite (lookup_drop_cons us (S j) un Hn) in Hw'.
  rewrite Hw'.
  assert (Hmark' : shouldBeTreatAsAsync
            (__meta__ (wrappedOf (userHandlerDecorators F0) (S j) un
                         (drop (S (S j)) us))) = true).
  { simpl. destruct (decide (S j = k)) as [E|Hne].
    - subst k. assert (un = uk) as -> by congruence. by rewrite Ha.
    - rewrite (existsb_drop_later us (S (S j)) k uk Hk Ha) by lia.
      apply orb_true_r. }
  rewrite Hmark'.
  destruct (isFnAsync uj) eqn:Euj; [|reflexivity].
  unfold bind, invokeUser. rewrite Hkind.
  destruct (settle _ _) as [[v|e|] t1] eqn:Es; try reflexivity.
  by rewrite (promise_resolve_promise v (settle_is_promise _ _ _ _ Es)).
Qed.

Lemma async_contagion_witness :
  exists w,
    lookupHandler (build [plain first_arg; async_identity] (daisugi [])) 0 0
      = Some w
    /\ shouldBeTreatAsAsync (__meta__ w) = true
    /\ forall n args t,
         stopPropagationPayload args = None ->
         call (S n) (build [plain first_arg; async_identity] (daisugi []))
           (FHandler 0 0) args t =
         awaited_then_successor
           (build [plain first_arg; async_identity] (daisugi []))
           (call n (build [plain first_arg; async_identity] (daisugi [])))
           0 0 w args t.
Proof.
  destruct (async_contagion (daisugi []) [plain first_arg; async_identity]
              1 async_identity 0 (plain first_arg)
              eq_refl eq_refl (Nat.lt_0_succ 0) eq_refl)
    as (w & Hw & Hmark & Hrun).
  exists w. split; [exact Hw|]. split; [exact Hmark|].
  exact (Hrun eq_refl eq_refl).
Defined.

(** C3 as stated fails for a predecessor that asks for the toolkit: it
    carries the mark, but it calls its successor itself, on arguments of its
    choice and before it returns; its result is not awaited and nothing is
    chained after it. *)
Lemma toolkit_handler_is_not_chained :
  exists w,
    lookupHandler (build [calls_next_returns_two; async_identity] (daisugi [])) 0 0
      = Some w
    /\ shouldBeTreatAsAsync (__meta__ w) = true
    /\ call 3 (build [calls_next_returns_two; async_identity] (daisugi []))
         (FHandler 0 0) [VNum 0] []
       = (Normal (VNum 2), [(0, 0, [VNum 0]); (0, 1, [VNum 1])])
    /\ awaited_then_successor
         (build [calls_next_returns_two; async_identity] (daisugi []))
         (call 2 (build [calls_next_returns_two; async_identity] (daisugi [])))
         0 0 w [VNum 0] []
       = (Normal (VFulfilled (VNum 2)),
          [(0, 0, [VNum 0]); (0, 1, [VNum 1]); (0, 1, [VNum 2])])
    /\ call 3 (build [calls_next_returns_two; async_identity] (daisugi []))
         (FHandler 0 0) [VNum 0] []
       <> awaited_then_successor
            (build [calls_next_returns_two; async_identity] (daisugi []))
            (call 2 (build [calls_next_returns_two; async_identity] (daisugi [])))
            0 0 w [VNum 0] [].
Proof.
  eexists. split; [vm_compute; reflexivity|].
  repeat split; try (vm_compute; reflexivity).
  vm_compute. discriminate.
Qed.

(** ** Signals in chains of synchronous handlers *)

Section SyncChains.

Variable F0 : Factory.
Local Abbreviation ds := (userHandlerDecorators F0).
Local Abbreviation p := (length (pipelines F0)).

Lemma no_stop_through_head fs args :
  no_stop_through fs args = true -> stopPropagationPayload args = None.
Proof.
  destruct fs; simpl; by destruct (stopPropagationPayload args).
Qed.

(** A prefix of plain synchronous handlers, in a chain without async
    handler from index [i] on, hands its value to the handler after it. *)
Lemma plain_prefix all u rest : forall pre fs i args t n,
  drop i all = pre ++ u :: rest ->
  Forall2 (pure_sync ds) pre fs ->
  existsb isFnAsync (pre ++ u :: rest) = false ->
  no_stop_through fs args = true ->
  call (length pre + n) (build all F0) (FHandler p i) args t =
  call n (build all F0) (FHandler p (i + length pre)) (pipe fs args)
    (t ++ prefix_invocations p i fs args).
Proof.
  induction pre as [|v pre IH]; intros fs i args t n Hdrop Hall Hsync Hstop.
  - apply Forall2_nil_inv_l in Hall as ->. simpl.
    by rewrite Nat.add_0_r, app_nil_r.
  - destruct fs as [|f fs]; [by apply Forall2_cons_nil_inv in Hall|].
    apply Forall2_cons_1 in Hall as [(Ha & Hi & Hf & Hb) Hrest].
    pose proof (no_stop_through_head _ _ Hstop) as Es.
    simpl in Hstop. rewrite Es in Hstop.
    rewrite <- app_comm_cons in Hdrop.
    assert (Hw := build_lookup_new F0 all i). rewrite Hdrop in Hw.
    assert (Hw' := build_lookup_next F0 all i _ _ Hdrop).
    simpl in Hsync. apply orb_false_iff in Hsync as [_ Hsync].
    destruct (pre ++ u :: rest) as [|x later] eqn:El;
      [by destruct pre|].
    change (length (v :: pre) + n) with (S (length pre + n)).
    rewrite (plain_sync_forward _ _ _ _ _ _ _ (f args) _ Hw Es Hi Ha Hw');
      [| exact Hsync | exact Hf | apply Hb].
    cbn [nextHandlerIndex wrappedOf].
    rewrite (IH fs (S i) [f args] _ n); auto.
    + simpl. rewrite <- app_assoc. simpl. do 2 f_equal. lia.
    + apply (drop_S_of_cons _ _ _ _ Hdrop).
Qed.

(** A synchronous handler whose body throws, in a chain whose next handler
    carries no async mark: its wrapped form throws the same value. *)
Lemma sync_handler_throws F q k w args n t e t' :
  lookupHandler F q k = Some w ->
  w_isAsync w = false ->
  asyncFunction (decoratedUserHandler w) = false ->
  (forall nh, lookupHandler F q (nextHandlerIndex w) = Some nh ->
              shouldBeTreatAsAsync (__meta__ nh) = false) ->
  stopPropagationPayload args = None ->
  exec (if w_injectToolkit w
        then Some (makeToolkit F (call n F) q w args) else None)
       (body (decoratedUserHandler w) args) (t ++ [(q, k, args)])
    = (Thrown e, t') ->
  call (S n) F (FHandler q k) args t = (Thrown e, t').
Proof.
  intros Hw Ha Hf Hmark Hstop Hexec.
  rewrite (call_handler _ _ _ _ _ _ Hw). unfold handler. rewrite Hstop.
  destruct (w_injectToolkit w) eqn:Einj.
  - unfold invokeUser. by rewrite Hf.
  - destruct (lookupHandler F q (nextHandlerIndex w)) as [nh|] eqn:Enh.
    + rewrite Ha, (Hmark nh eq_refl). unfold bind, invokeUser.
      by rewrite Hf, Hexec.
    + unfold invokeUser. by rewrite Hf.
Qed.

(** The chain [pre ++ u :: rest], without async handler, whose handlers
    [pre] are plain and whose handler [u] throws [e]: the chain throws [e]
    after running [pre] and [u], and nothing else. *)
Lemma sync_chain_throws pre fs u rest args t n e :
  Forall2 (pure_sync ds) pre fs ->
  existsb isFnAsync (pre ++ u :: rest) = false ->
  asyncFunction (decorate ds u) = false ->
  no_stop_through fs args = true ->
  let F := build (pre ++ u :: rest) F0 in
  let k := length pre in
  let t' := t ++ prefix_invocations p 0 fs args ++ [(p, k, pipe fs args)] in
  (forall w, lookupHandler F p k = Some w ->
     exec (if w_injectToolkit w
           then Some (makeToolkit F (call n F) p w (pipe fs args)) else None)
          (body (decorate ds u) (pipe fs args)) t' = (Thrown e, t')) ->
  call (k + S n) F (FHandler p 0) args t = (Thrown e, t').
Proof.
  intros Hall Hsync Hf Hstop F k t' Hexec. subst F k t'.
  rewrite (plain_prefix (pre ++ u :: rest) u rest pre fs 0 args t (S n)
             eq_refl Hall Hsync Hstop).
  simpl plus.
  assert (Hw := build_lookup_new F0 (pre ++ u :: rest) (length pre)).
  rewrite drop_app_length in Hw.
  assert (Hsync' : isFnAsync u = false /\ existsb isFnAsync rest = false).
  { rewrite existsb_app in Hsync. apply orb_false_iff in Hsync as [_ Hs].
    simpl in Hs. by apply orb_false_iff in Hs. }
  destruct Hsync' as [Hu Hrest].
  assert (Hpipe : stopPropagationPayload (pipe fs args) = None).
  { clear -Hstop. revert args Hstop.
    induction fs as [|f fs IH]; intros args Hstop.
    - simpl in *. by destruct (stopPropagationPayload args).
    - simpl in *. destruct (stopPropagationPayload args); [done|]. by apply IH. }
  apply (sync_handler_throws _ _ _ _ _ _ _ _ _ Hw Hu Hf); auto.
  - cbn [nextHandlerIndex wrappedOf]. intros nh Hnh.
    rewrite (build_lookup_next F0 _ _ _ _ (drop_app_length _ _)) in Hnh.
    destruct rest as [|x later]; [discriminate|].
    injection Hnh as <-. simpl in *. exact Hrest.
  - cbn [decoratedUserHandler wrappedOf]. rewrite <- app_assoc.
    apply Hexec. exact Hw.
Qed.

End SyncChains.

(** The entry wrapper around a handler that carries no async mark hands
    what the handler throws to [captureException]. *)
Lemma captured_sync_thrown F n p i w args t e t' :
  lookupHandler F p i = Some w ->
  isAsync (__meta__ w) = false ->
  shouldBeTreatAsAsync (__meta__ w) = false ->
  call n F (FHandler p i) args t = (Thrown e, t') ->
  call (S n) F (FCapture (Some (p, i))) args t =
  captureException (call n F) e t'.
Proof.
  intros Hw Ha Hm Hcall. rewrite call_capture. unfold captured.
  rewrite Hw, Ha, Hm. unfold try_catch. by rewrite Hcall.
Qed.

Lemma entry_of_sync_chain F0 us x later :
  us = x :: later ->
  existsb isFnAsync us = false ->
  (entrySequenceOf us F0).1 = FCapture (Some (length (pipelines F0), 0))
  /\ exists w,
       lookupHandler (build us F0) (length (pipelines F0)) 0 = Some w
       /\ isAsync (__meta__ w) = false
       /\ shouldBeTreatAsAsync (__meta__ w) = false.
Proof.
  intros -> Hsync. unfold entrySequenceOf. cbn [fst].
  rewrite build_first_handler. split; [reflexivity|].
  rewrite build_lookup_new. simpl drop. eexists. split; [reflexivity|].
  simpl in *. apply orb_false_iff in Hsync as [-> ->]. auto.
Qed.

(** In a chain without async handler, an abort made by the handler after a
    prefix of plain handlers is resolved by the entry point into its result;
    the handlers after the aborting one do not run. *)
Lemma abort_in_sync_chain F0 pre fs u rest R args t :
  Forall2 (pure_sync (userHandlerDecorators F0)) pre fs ->
  existsb isFnAsync (pre ++ u :: rest) = false ->
  asyncFunction (decorate (userHandlerDecorators F0) u) = false ->
  (forall a, body (decorate (userHandlerDecorators F0) u) a = AbortWith R) ->
  no_stop_through fs args = true ->
  let p := length (pipelines F0) in
  ends_with (entrySequenceOf (pre ++ u :: rest) F0).2
    (entrySequenceOf (pre ++ u :: rest) F0).1 args t (Normal R)
    (t ++ prefix_invocations p 0 fs args ++ [(p, length pre, pipe fs args)]).
Proof.
  intros Hall Hsync Hf Hbody Hstop p. subst p.
  destruct (pre ++ u :: rest) as [|x later] eqn:El; [by destruct pre|].
  destruct (entry_of_sync_chain F0 _ x later eq_refl Hsync)
    as (-> & w & Hw & Ha & Hm).
  apply (ends_with_of_call (S (length pre + 1))); [|discriminate].
  cbn [entrySequenceOf snd].
  rewrite (captured_sync_thrown _ _ _ _ _ _ _ (AbortException R)
             (t ++ prefix_invocations (length (pipelines F0)) 0 fs args
                ++ [(length (pipelines F0), length pre, pipe fs args)])
             Hw Ha Hm); [reflexivity|].
  rewrite <- El in *.
  apply (sync_chain_throws F0 pre fs u rest args t 0 _ Hall Hsync Hf Hstop).
  intros w' _. rewrite Hbody. by destruct (w_injectToolkit w').
Qed.

(** In a chain without async handler, a jump made by the toolkit handler
    after a prefix of plain handlers makes the entry point end the way the
    wrapped target does on the arguments of the jump; the handlers after the
    jumping one do not run. *)
Lemma jump_in_sync_chain F0 pre fs u rest x A args t o t'' :
  Forall2 (pure_sync (userHandlerDecorators F0)) pre fs ->
  existsb isFnAsync (pre ++ u :: rest) = false ->
  asyncFunction (decorate (userHandlerDecorators F0) u) = false ->
  injectToolkit u = true ->
  (forall a, body (decorate (userHandlerDecorators F0) u) a = TkJumpTo x A) ->
  no_stop_through fs args = true ->
  let p := length (pipelines F0) in
  let F := build (pre ++ u :: rest) F0 in
  ends_with F (decorateWithExceptionCapture (globalHandlersByName F !! x)) A
    (t ++ prefix_invocations p 0 fs args ++ [(p, length pre, pipe fs args)])
    o t'' ->
  ends_with F (entrySequenceOf (pre ++ u :: rest) F0).1 args t o t''.
Proof.
  intros Hall Hsync Hf Hinj Hbody Hstop p F (m & Hm & Hne). subst p F.
  destruct (pre ++ u :: rest) as [|y later] eqn:El; [by destruct pre|].
  destruct (entry_of_sync_chain F0 _ y later eq_refl Hsync)
    as (-> & w & Hw & Ha & Hmk).
  apply (ends_with_of_call (S (length pre + S m))); [|exact Hne].
  rewrite (captured_sync_thrown _ _ _ _ _ _ _
             (JumpException
                (decorateWithExceptionCapture
                   (globalHandlersByName (build (y :: later) F0) !! x)) A)
             (t ++ prefix_invocations (length (pipelines F0)) 0 fs args
                ++ [(length (pipelines F0), length pre, pipe fs args)])
             Hw Ha Hmk).
  - simpl captureException.
    apply (call_mono _ m (length pre + S m)); [lia|exact Hm|exact Hne].
  - rewrite <- El in *.
    apply (sync_chain_throws F0 pre fs u rest args t m _ Hall Hsync Hf Hstop).
    intros w' Hw'. rewrite Hbody.
    assert (Hi : w_injectToolkit w' = true).
    { rewrite build_lookup_new, drop_app_length in Hw'.
      injection Hw' as <-. exact Hinj. }
    rewrite Hi. reflexivity.
Qed.

(** ** C4 and C5: a synchronous throw under the treat-as-async mark *)

(** C4 at [entrySequenceOf([() => abortWith(R), async (x) => x])]: the first
    handler carries the treat-as-async mark, the entry wrapper takes its
    [Promise.resolve(handler(...args)).catch(...)] branch, the abort is
    thrown before any promise exists and reaches the caller. The entry point
    does not resolve to [R]. *)
Theorem abort_escapes_marked_entry R :
  ends_with (entrySequenceOf [aborter R; async_identity] (daisugi [])).2
    (entrySequenceOf [aborter R; async_identity] (daisugi [])).1
    [VNum 0] [] (Thrown (AbortException R)) [(0, 0, [VNum 0])].
Proof.
  apply (ends_with_of_call 2); [vm_compute; reflexivity|discriminate].
Qed.

(** The same chain with a synchronous second handler resolves to [R]. *)
Lemma abort_resolved_unmarked_entry R :
  ends_with (entrySequenceOf [aborter R; plain first_arg] (daisugi [])).2
    (entrySequenceOf [aborter R; plain first_arg] (daisugi [])).1
    [VNum 0] [] (Normal R) [(0, 0, [VNum 0])].
Proof.
  apply (ends_with_of_call 2); [vm_compute; reflexivity|discriminate].
Qed.

(** C5 at [entrySequenceOf([(x, toolkit) => toolkit.jumpTo("x", 5),
    async (x) => x])], with a handler named [x] registered: the jump signal
    is thrown synchronously under the treat-as-async mark and reaches the
    caller; the handler [x] is not invoked. *)
Theorem jump_escapes_marked_entry :
  ends_with (entrySequenceOf [jumper "x" [VNum 5]; async_identity] factory_with_x).2
    (entrySequenceOf [jumper "x" [VNum 5]; async_identity] factory_with_x).1
    [VNum 0] []
    (Thrown (JumpException (FCapture (Some (0, 0))) [VNum 5]))
    [(1, 0, [VNum 0])].
Proof.
  apply (ends_with_of_call 2); [vm_compute; reflexivity|discriminate].
Qed.

(** The same chain with a synchronous second handler resolves to the result
    of the handler [x] on 5. *)
Lemma jump_resolved_unmarked_entry :
  ends_with (entrySequenceOf [jumper "x" [VNum 5]; plain first_arg] factory_with_x).2
    (entrySequenceOf [jumper "x" [VNum 5]; plain first_arg] factory_with_x).1
    [VNum 0] [] (Normal (VNum 5)) [(1, 0, [VNum 0]); (0, 0, [VNum 5])].
Proof.
  apply (ends_with_of_call 4); [vm_compute; reflexivity|discriminate].
Qed.

(** ** C6: a jump to a name that is not registered *)

Lemma build_registry_unnamed F us n :
  Forall (fun u => name u = None) us ->
  globalHandlersByName (build us F) !! n = globalHandlersByName F !! n.
Proof.
  intros Hall. rewrite build_registry.
  assert (H : forall i, last_named_from i us n = None).
  { induction Hall as [|u l Hu _ IH]; intros i; simpl; [reflexivity|].
    rewrite IH, Hu. reflexivity. }
  by rewrite H.
Qed.

(** What [toolkit.jumpTo(name, ...A)] throws. *)
Lemma jumpTo_throws F callee p w args name A :
  jumpTo (makeToolkit F callee p w args) name A =
  Thrown (JumpException
            (decorateWithExceptionCapture (globalHandlersByName F !! name)) A).
Proof. reflexivity. Qed.

(** A single handler with the toolkit whose body is a jump: what the entry
    point does with it. *)
Lemma single_jumper_entry F0 async name A args t n :
  userHandlerDecorators F0 = [] ->
  stopPropagationPayload args = None ->
  let u := {| asyncFunction := async; injectToolkit := true; name := None;
              body := fun _ => TkJumpTo name A |} in
  let F := build [u] F0 in
  let p := length (pipelines F0) in
  let target := globalHandlersByName F0 !! name in
  call (S (S n)) F (FCapture (Some (p, 0))) args t =
  (if async then settle (call (S n) F (FCapture target) A)
   else call (S n) F (FCapture target) A) (t ++ [(p, 0, args)]).
Proof.
  intros Hds Hstop u F p target. subst F p target.
  pose proof (build_lookup_new F0 [u] 0) as Hw. simpl drop in Hw.
  rewrite call_capture. unfold captured. rewrite Hw.
  cbn [__meta__ wrappedOf isAsync shouldBeTreatAsAsync isFnAsync].
  rewrite (call_handler _ _ _ _ _ _ Hw). unfold handler. rewrite Hstop.
  cbn [w_injectToolkit wrappedOf decoratedUserHandler]. rewrite Hds.
  cbn [decorate fold_left injectToolkit u].
  assert (Hreg : globalHandlersByName (build [u] F0) !! name
                 = globalHandlersByName F0 !! name).
  { apply build_registry_unnamed. by repeat constructor. }
  unfold invokeUser. cbn [asyncFunction body u exec].
  rewrite jumpTo_throws, Hreg.
  destruct async; simpl; unfold bind, try_catch, settle, ret; simpl.
  - change (call_body (build [u] F0) (call n (build [u] F0))
              (FCapture (globalHandlersByName F0 !! name)) A)
      with (call (S n) (build [u] F0)
              (FCapture (globalHandlersByName F0 !! name)) A).
    reflexivity.
  - reflexivity.
Qed.

(** C6, as amended: [jumpTo(name, ...A)] with [name] not registered throws a
    Jump signal whose target wraps [undefined]; the entry wrapper interprets
    it as a jump, and calling that target raises a type error. In a chain
    without async handler where a toolkit handler makes this jump after a
    prefix of plain handlers, the caller of the entry point receives the type
    error as a thrown value and the handlers after the jumping one do not
    run; when the single handler of the chain is async and makes this jump,
    the caller receives a promise rejected with the type error. *)
Theorem jump_to_missing_name F0 pre fs u rest name A args t :
  let us := pre ++ u :: rest in
  let F := build us F0 in
  let p := length (pipelines F0) in
  globalHandlersByName F !! name = None ->
  Forall2 (pure_sync (userHandlerDecorators F0)) pre fs ->
  existsb isFnAsync us = false ->
  asyncFunction (decorate (userHandlerDecorators F0) u) = false ->
  injectToolkit u = true ->
  (forall a, body (decorate (userHandlerDecorators F0) u) a = TkJumpTo name A) ->
  no_stop_through fs args = true ->
  (forall callee q w args',
     jumpTo (makeToolkit F callee q w args') name A =
     Thrown (JumpException (decorateWithExceptionCapture None) A))
  /\ (forall n t0,
       captureException (call (S n) F)
         (JumpException (decorateWithExceptionCapture None) A) t0
       = (Thrown VTypeError, t0))
  /\ ends_with F (entrySequenceOf us F0).1 args t (Thrown VTypeError)
       (t ++ prefix_invocations p 0 fs args ++ [(p, length pre, pipe fs args)])
  /\ (userHandlerDecorators F0 = [] ->
      globalHandlersByName F0 !! name = None ->
      ends_with (entrySequenceOf [async_jumper name A] F0).2
        (entrySequenceOf [async_jumper name A] F0).1 args t
        (Normal (VRejected VTypeError)) (t ++ [(p, 0, args)])).
Proof.
  intros us F p Hreg Hall Hsync Hf Hinj Hbody Hstop. subst us F p.
  repeat split.
  - intros. by rewrite jumpTo_throws, Hreg.
  - apply (jump_in_sync_chain F0 pre fs u rest name A args t); auto.
    rewrite Hreg. apply (ends_with_of_call 1); [reflexivity|discriminate].
  - intros Hds Hreg0.
    pose proof (no_stop_through_head _ _ Hstop) as Hargs.
    unfold entrySequenceOf. cbn [fst snd]. rewrite build_first_handler.
    apply (ends_with_of_call 2); [|discriminate].
    unfold async_jumper, decorateWithExceptionCapture.
    rewrite (single_jumper_entry F0 true name A _ t 0 Hds Hargs).
    rewrite Hreg0. reflexivity.
Qed.

Lemma jump_to_missing_name_witness :
  ends_with (build [plain first_arg; jumper "missing" [VNum 5]; plain first_arg]
               factory_with_x)
    (entrySequenceOf [plain first_arg; jumper "missing" [VNum 5]; plain first_arg]
       factory_with_x).1
    [VNum 0] [] (Thrown VTypeError) [(1, 0, [VNum 0]); (1, 1, [VNum 0])].
Proof.
  refine (proj1 (proj2 (proj2 (jump_to_missing_name factory_with_x
    [plain first_arg] [first_arg] (jumper "missing" [VNum 5])
    [plain first_arg] "missing" [VNum 5] [VNum 0] []
    eq_refl _ eq_refl eq_refl eq_refl (fun _ => eq_refl) eq_refl)))).
  repeat constructor.
Defined.

(** C6 as stated fails: what [jumpTo("missing", 5)] raises is a Jump signal,
    not an error of its own type; the entry wrapper interprets it as a jump,
    and the caller receives another value, the type error raised by that
    interpretation. *)
Lemma missing_jump_raises_a_jump_signal :
  ends_with (build [jumper "missing" [VNum 5]] (daisugi [])) (FHandler 0 0)
    [VNum 0] []
    (Thrown (JumpException (FCapture None) [VNum 5])) [(0, 0, [VNum 0])]
  /\ is_signal (JumpException (FCapture None) [VNum 5]) = true
  /\ (forall n t,
       captureException (call (S n) (build [jumper "missing" [VNum 5]] (daisugi [])))
         (JumpException (FCapture None) [VNum 5]) t
       <> (Thrown (JumpException (FCapture None) [VNum 5]), t))
  /\ ends_with (entrySequenceOf [jumper "missing" [VNum 5]] (daisugi [])).2
       (entrySequenceOf [jumper "missing" [VNum 5]] (daisugi [])).1
       [VNum 0] [] (Thrown VTypeError) [(0, 0, [VNum 0])].
Proof.
  split; [apply (ends_with_of_call 1); [vm_compute; reflexivity|discriminate]|].
  split; [reflexivity|].
  split; [intros n t; simpl; discriminate|].
  apply (ends_with_of_call 2); [vm_compute; reflexivity|discriminate].
Qed.

(** ** C7: stop propagation *)

(** C7 as stated fails: a stop-propagation value is resolved to its payload
    by the wrapped handler that receives it, and only a handler without
    toolkit that has a successor hands its return value to one. Returned by
    the last handler of a chain, or by a handler that takes the toolkit, the
    stop-propagation value is the result of the chain as it is, not its
    payload; returned under a decorator that makes a synchronous handler
    return a promise, it reaches the successor inside that promise and the
    successor runs. *)
Lemma returned_stop_value_is_not_always_resolved :
  (sequenceOf [plain (fun _ => stopPropagationWith (VNum 1))] (daisugi [])).1
    = Some (FHandler 0 0)
  /\ ends_with
       (sequenceOf [plain (fun _ => stopPropagationWith (VNum 1))] (daisugi [])).2
       (FHandler 0 0) [VNum 0] []
       (Normal (StopException (VNum 1))) [(0, 0, [VNum 0])]
  /\ ends_with
       (sequenceOf [stop_with_toolkit (VNum 1); plain (fun _ => VNum 7)]
          (daisugi [])).2
       (FHandler 0 0) [VNum 0] []
       (Normal (StopException (VNum 1))) [(0, 0, [VNum 0])]
  /\ ends_with
       (sequenceOf stop_then_seven (daisugi [asyncify])).2
       (FHandler 0 0) [VNum 0] []
       (Normal (VFulfilled (VNum 7)))
       [(0, 0, [VNum 0]);
        (0, 1, [VFulfilled (StopException (VNum 1))])]
  /\ StopException (VNum 1) <> VNum 1.
Proof.
  split; [reflexivity|].
  repeat split; try discriminate;
    apply (ends_with_of_call 3); try discriminate; vm_compute; reflexivity.
Qed.

(** C7, as amended: a wrapped handler whose first argument is a
    stop-propagation value carrying [R] returns [R] at once and its user
    handler does not run; so when a handler without toolkit, left of its kind
    by the decorators, returns such a value and has a successor, its wrapped
    form resolves to [R] (a promise of [R] in the awaited modes), no later
    user handler runs and nothing is thrown. A handler that takes the toolkit
    or has no successor returns the stop-propagation value as it is (in a
    promise when its decorated function is async). *)
Theorem stop_propagation_short_circuits :
  (forall F p i w R rest n t,
     lookupHandler F p i = Some w ->
     call (S n) F (FHandler p i) (stopPropagationWith R :: rest) t
     = (Normal R, t))
  /\ (forall F p i w nh R args n t,
       lookupHandler F p i = Some w ->
       lookupHandler F p (nextHandlerIndex w) = Some nh ->
       w_injectToolkit w = false ->
       asyncFunction (decoratedUserHandler w) = w_isAsync w ->
       stopPropagationPayload args = None ->
       body (decoratedUserHandler w) args = Return (stopPropagationWith R) ->
       call (S (S n)) F (FHandler p i) args t
       = (Normal (if w_isAsync w || shouldBeTreatAsAsync (__meta__ nh)
                  then promise_resolve R else R),
          t ++ [(p, i, args)]))
  /\ (forall F p i w R args n t,
       lookupHandler F p i = Some w ->
       w_injectToolkit w = true
       \/ lookupHandler F p (nextHandlerIndex w) = None ->
       stopPropagationPayload args = None ->
       body (decoratedUserHandler w) args = Return (stopPropagationWith R) ->
       call (S n) F (FHandler p i) args t
       = (Normal (if asyncFunction (decoratedUserHandler w)
                  then VFulfilled (stopPropagationWith R)
                  else stopPropagationWith R),
          t ++ [(p, i, args)])).
Proof.
  split; [|split].
  - intros F p i w R rest n t Hw.
    rewrite (call_handler _ _ _ _ _ _ Hw). reflexivity.
  - intros F p i w nh R args n t Hw Hnh Hinj Hkind Hstop Hbody.
    rewrite (call_handler _ _ _ _ _ _ Hw). unfold handler.
    rewrite Hstop, Hinj, Hnh. unfold bind, invokeUser.
    rewrite Hkind, Hbody.
    destruct (w_isAsync w); [|destruct (shouldBeTreatAsAsync (__meta__ nh))];
      simpl; unfold settle, ret; rewrite ?Hnh; reflexivity.
  - intros F p i w R args n t Hw Hlast Hstop Hbody.
    rewrite (call_handler _ _ _ _ _ _ Hw). unfold handler. rewrite Hstop.
    destruct (w_injectToolkit w) eqn:Einj.
    + unfold invokeUser. rewrite Hbody.
      by destruct (asyncFunction (decoratedUserHandler w)).
    + destruct Hlast as [|Hnone]; [discriminate|]. rewrite Hnone.
      unfold invokeUser. rewrite Hbody.
      by destruct (asyncFunction (decoratedUserHandler w)).
Qed.

Lemma stop_propagation_short_circuits_witness :
  call 1 (build stop_then_seven (daisugi [])) (FHandler 0 1)
    [stopPropagationWith (VNum 1)] [] = (Normal (VNum 1), [])
  /\ call 2 (build stop_then_seven (daisugi [])) (FHandler 0 0) [VNum 0] []
     = (Normal (VNum 1), [(0, 0, [VNum 0])])
  /\ call 1 (build [stop_with_toolkit (VNum 1); plain (fun _ => VNum 7)]
               (daisugi []))
       (FHandler 0 0) [VNum 0] []
     = (Normal (stopPropagationWith (VNum 1)), [(0, 0, [VNum 0])]).
Proof.
  split; [|split].
  - refine (proj1 stop_propagation_short_circuits
              (build stop_then_seven (daisugi [])) 0 1 _ (VNum 1) [] 0 [] _).
    reflexivity.
  - exact (proj1 (proj2 stop_propagation_short_circuits)
             (build stop_then_seven (daisugi [])) 0 0 _ _ (VNum 1) [VNum 0] 0 []
             eq_refl eq_refl eq_refl eq_refl eq_refl eq_refl).
  - exact (proj2 (proj2 stop_propagation_short_circuits)
             (build [stop_with_toolkit (VNum 1); plain (fun _ => VNum 7)]
                (daisugi []))
             0 0 _ (VNum 1) [VNum 0] 0 []
             eq_refl (or_introl eq_refl) eq_refl eq_refl).
Defined.

(** ** C8: the registry *)

Lemma last_named_from_last us n : forall i j uj,
  us !! j = Some uj -> registers uj n ->
  (forall k uk, j < k -> us !! k = Some uk -> ~ registers uk n) ->
  last_named_from i us n = Some (i + j).
Proof.
  induction us as [|u us IH]; intros i j uj Hj Hreg Hlast; [done|].
  destruct j as [|j]; simpl.
  - injection Hj as ->.
    assert (Hnone : forall m, last_named_from m us n = None).
    { clear IH. assert (Hl : forall k uk, us !! k = Some uk -> ~ registers uk n).
      { intros k uk Hk. apply (Hlast (S k)); [lia|exact Hk]. }
      clear Hlast. induction us as [|v l IHl]; intros m; [done|]. simpl.
      rewrite IHl by (intros k uk Hk; apply (Hl (S k)); exact Hk).
      destruct (decide (truthy_name (name v) = Some n)) as [E|]; [|done].
      by destruct (Hl 0 v eq_refl). }
    rewrite Hnone. unfold registers in Hreg.
    rewrite decide_True by exact Hreg. by rewrite Nat.add_0_r.
  - rewrite (IH (S i) j uj Hj Hreg).
    + f_equal. lia.
    + intros k uk Hk. apply (Hlast (S k)). lia.
Qed.

(** C8: the registry belongs to the factory and is handed to every build.
    After a build in which the handler at index [j] is the last one that
    declares the name [n], whatever was registered under [n] before, in this
    pipeline or in an earlier one, the registry maps [n] to the wrapped form
    of that handler and a [jumpTo(n, ...A)] made from any handler of any
    pipeline of the factory targets it; the names the build does not declare
    keep their entries. *)
Theorem registry_last_write_wins F us n j uj :
  us !! j = Some uj -> registers uj n ->
  (forall k uk, j < k -> us !! k = Some uk -> ~ registers uk n) ->
  let F' := build us F in
  let latest := (length (pipelines F), j) in
  globalHandlersByName F' !! n = Some latest
  /\ lookupHandler F' latest.1 latest.2
     = Some (wrappedOf (userHandlerDecorators F) j uj (drop (S j) us))
  /\ (forall callee p w args A,
       jumpTo (makeToolkit F' callee p w args) n A =
       Thrown (JumpException (decorateWithExceptionCapture (Some latest)) A))
  /\ (forall m, (forall k uk, us !! k = Some uk -> ~ registers uk m) ->
       globalHandlersByName F' !! m = globalHandlersByName F !! m).
Proof.
  intros Hj Hreg Hlast F' latest. subst F' latest.
  assert (Hn : globalHandlersByName (build us F) !! n
               = Some (length (pipelines F), j)).
  { rewrite build_registry.
    by rewrite (last_named_from_last us n 0 j uj Hj Hreg Hlast). }
  split; [exact Hn|]. split; [|split].
  - cbn [fst snd]. rewrite build_lookup_new.
    by rewrite (lookup_drop_cons _ _ _ Hj).
  - intros. by rewrite jumpTo_throws, Hn.
  - intros m Hm. rewrite build_registry.
    assert (H : forall i, last_named_from i us m = None).
    { clear Hj Hlast Hn. induction us as [|v l IHl]; intros i; [done|]. simpl.
      rewrite IHl by (intros k uk Hk; apply (Hm (S k)); exact Hk).
      destruct (decide (truthy_name (name v) = Some m)) as [E|]; [|done].
      by destruct (Hm 0 v eq_refl). }
    by rewrite H.
Qed.

Lemma registry_last_write_wins_witness :
  globalHandlersByName
    (build [named_constant "x" (VNum 2)]
       (build [named_constant "x" (VNum 1)] (daisugi []))) !! "x"
  = Some (1, 0).
Proof.
  refine (proj1 (registry_last_write_wins
    (build [named_constant "x" (VNum 1)] (daisugi []))
    [named_constant "x" (VNum 2)] "x" 0 (named_constant "x" (VNum 2))
    eq_refl eq_refl _)).
  intros k uk Hk Hlook. destruct k; [lia|discriminate Hlook].
Defined.

(** Two pipelines register [x]; a third jumps to [x]: the second one runs. *)
Lemma jump_reaches_latest_registration :
  let F := build [named_constant "x" (VNum 2)]
             (build [named_constant "x" (VNum 1)] (daisugi [])) in
  ends_with (entrySequenceOf [jumper "x" [VNum 5]] F).2
    (entrySequenceOf [jumper "x" [VNum 5]] F).1 [VNum 0] []
    (Normal (VNum 2)) [(2, 0, [VNum 0]); (1, 0, [VNum 5])].
Proof.
  apply (ends_with_of_call 4); [vm_compute; reflexivity|discriminate].
Qed.

(** ** C9: classification by syntax *)

(** C9, as amended: a handler is classified by its syntax alone, whatever it
    returns. When a synchronous handler without toolkit returns [v], be it a
    promise, and no handler after it in the chain is async, its successor is
    called on [v] as it is, as sole argument. *)
Theorem unawaited_promise_forwarded F0 us i u v args n t :
  us !! i = Some u ->
  isFnAsync u = false ->
  injectToolkit u = false ->
  S i < length us ->
  existsb isFnAsync (drop (S i) us) = false ->
  asyncFunction (decorate (userHandlerDecorators F0) u) = false ->
  body (decorate (userHandlerDecorators F0) u) args = Return v ->
  stopPropagationPayload args = None ->
  let F := build us F0 in
  let p := length (pipelines F0) in
  (exists w, lookupHandler F p i = Some w
             /\ isAsync (__meta__ w) = asyncFunction u
             /\ w_isAsync w = asyncFunction u)
  /\ call (S n) F (FHandler p i) args t =
     call n F (FHandler p (S i)) [v] (t ++ [(p, i, args)]).
Proof.
  intros Hi Ha Hinj Hlen Hlater Hkind Hbody Hstop F p. subst F p.
  pose proof (build_lookup_new F0 us i) as Hw.
  rewrite (lookup_drop_cons _ _ _ Hi) in Hw.
  destruct (lookup_lt_is_Some_2 us (S i) Hlen) as [un Hn].
  pose proof (build_lookup_next F0 us i u _ (lookup_drop_cons _ _ _ Hi)) as Hw'.
  rewrite (lookup_drop_cons _ _ _ Hn) in Hw'.
  rewrite (lookup_drop_cons _ _ _ Hn) in Hlater. simpl in Hlater.
  split; [eexists; split; [exact Hw|split; reflexivity]|].
  rewrite (plain_sync_forward _ _ _ _ _ _ _ v _ Hw Hstop Hinj Ha Hw');
    [reflexivity | exact Hlater | exact Hkind | exact Hbody].
Qed.

Lemma unawaited_promise_forwarded_witness :
  call 2 (build [plain (fun _ => VFulfilled (VNum 5)); plain first_arg] (daisugi []))
    (FHandler 0 0) [VNum 0] []
  = call 1 (build [plain (fun _ => VFulfilled (VNum 5)); plain first_arg] (daisugi []))
      (FHandler 0 1) [VFulfilled (VNum 5)] [(0, 0, [VNum 0])].
Proof.
  exact (proj2 (unawaited_promise_forwarded (daisugi [])
    [plain (fun _ => VFulfilled (VNum 5)); plain first_arg] 0
    (plain (fun _ => VFulfilled (VNum 5))) (VFulfilled (VNum 5)) [VNum 0] 1 []
    eq_refl eq_refl eq_refl (le_n 2) eq_refl eq_refl eq_refl eq_refl)).
Defined.

(** C9 as stated fails in a chain without toolkit whose next handler is
    async: the synchronous handler returns a promise of 5, and its successor
    receives 5, the awaited value, not the promise. *)
Lemma promise_awaited_before_async_successor :
  Forall (fun u => injectToolkit u = false)
    [plain (fun _ => VFulfilled (VNum 5)); async_identity]
  /\ isFnAsync (plain (fun _ => VFulfilled (VNum 5))) = false
  /\ ends_with
       (entrySequenceOf [plain (fun _ => VFulfilled (VNum 5)); async_identity]
          (daisugi [])).2
       (entrySequenceOf [plain (fun _ => VFulfilled (VNum 5)); async_identity]
          (daisugi [])).1
       [VNum 0] [] (Normal (VFulfilled (VNum 5)))
       [(0, 0, [VNum 0]); (0, 1, [VNum 5])]
  /\ (0, 1, [VFulfilled (VNum 5)]) ∉ [(0, 0, [VNum 0]); (0, 1, [VNum 5])].
Proof.
  split; [repeat constructor|]. split; [reflexivity|]. split.
  - apply (ends_with_of_call 3); [vm_compute; reflexivity|discriminate].
  - intros H. apply list_elem_of_In in H. simpl in H.
    destruct H as [H|[H|[]]]; discriminate H.
Qed.

(** ** C10: the empty pipeline *)

(** C10: on the empty list [sequenceOf] returns [undefined], and
    [entrySequenceOf] returns a function every call of which throws a type
    error. *)
Theorem empty_pipeline F :
  (sequenceOf [] F).1 = None
  /\ (entrySequenceOf [] F).1 = decorateWithExceptionCapture None
  /\ forall args t,
       ends_with (entrySequenceOf [] F).2 (entrySequenceOf [] F).1 args t
         (Thrown VTypeError) t
       /\ forall n,
            call (S n) (entrySequenceOf [] F).2 (entrySequenceOf [] F).1 args t
            = (Thrown VTypeError, t).
Proof.
  unfold sequenceOf, entrySequenceOf. cbn [fst snd].
  rewrite build_first_handler. repeat split.
  apply (ends_with_of_call 1); [reflexivity|discriminate].
Qed.

(** * Further properties of the engine *)

(** ** Chains in any factory that holds them *)

Lemma has_chain_lookup F q all i :
  has_chain F q all ->
  lookupHandler F q i =
  match drop i all with
  | u :: later => Some (wrappedOf (userHandlerDecorators F) i u later)
  | [] => None
  end.
Proof.
  intros H. unfold lookupHandler. rewrite H. by rewrite chainOf_lookup.
Qed.

Lemma has_chain_build_new F us :
  has_chain (build us F) (length (pipelines F)) us.
Proof.
  unfold has_chain. rewrite build_pipelines.
  by rewrite list_lookup_middle.
Qed.

Lemma has_chain_build_old F us q all :
  has_chain F q all -> has_chain (build us F) q all.
Proof.
  unfold has_chain. intros H. rewrite build_pipelines.
  apply lookup_app_l_Some. exact H.
Qed.

Lemma has_chain_next F q all i u later :
  has_chain F q all -> drop i all = u :: later ->
  lookupHandler F q (S i) =
  match later with
  | v :: later' => Some (wrappedOf (userHandlerDecorators F) (S i) v later')
  | [] => None
  end.
Proof.
  intros H Hd. rewrite (has_chain_lookup _ _ _ _ H).
  by rewrite (drop_S_of_cons _ _ _ _ Hd).
Qed.

Lemma plain_values_head f fs args :
  plain_values f fs args = true ->
  stopPropagationPayload args = None /\ is_promise (f args) = false.
Proof.
  destruct fs; simpl; destruct (stopPropagationPayload args); try done;
    destruct (is_promise (f args)); simpl; auto.
Qed.

Lemma plain_values_composition f fs : forall args,
  plain_values f fs args = true -> is_promise (composition f fs args) = false.
Proof.
  revert f. induction fs as [|g fs IH]; intros f args H.
  - apply (plain_values_head _ _ _ H).
  - simpl in *. destruct (stopPropagationPayload args); [done|].
    apply andb_true_iff in H as [_ H]. by apply IH.
Qed.

Lemma promise_resolve_plain v :
  is_promise v = false -> promise_resolve v = VFulfilled v.
Proof. unfold promise_resolve. by intros ->. Qed.

Lemma promise_resolve_awaited async v :
  is_promise v = false -> promise_resolve (awaited async v) = VFulfilled v.
Proof. intros H. destruct async; simpl; [done|]. by apply promise_resolve_plain. Qed.

Section MixedChains.

Variable F : Factory.
Variable q : nat.
Variable all : list Handler.
Hypothesis Hchain : has_chain F q all.
Local Abbreviation ds := (userHandlerDecorators F).

(** From index [i] on, a chain of plain handlers of both kinds computes the
    composition of their functions, handed over as a promise as soon as one
    of the handlers from [i] on is async. *)
Lemma mixed_chain_from : forall us fs u f i args t n,
  drop i all = u :: us ->
  Forall2 (pure_handler ds) (u :: us) (f :: fs) ->
  plain_values f fs args = true ->
  call (S (length us) + n) F (FHandler q i) args t =
  (Normal (awaited (existsb isFnAsync (u :: us)) (composition f fs args)),
   t ++ invocations q i f fs args).
Proof.
  induction us as [|u' us IH]; intros fs u f i args t n Hdrop Hall Hval;
    apply Forall2_cons_1 in Hall as [(Hi & Hf & Hb) Hrest];
    destruct (plain_values_head _ _ _ Hval) as [Es Hp];
    assert (Hw := has_chain_lookup F q all i Hchain); rewrite Hdrop in Hw;
    assert (Hw' := has_chain_next F q all i _ _ Hchain Hdrop).
  - apply Forall2_nil_inv_l in Hrest as ->.
    change (S (length (@nil Handler)) + n) with (S n).
    rewrite (call_handler _ _ _ _ _ _ Hw). unfold handler.
    rewrite Es. cbn [w_injectToolkit wrappedOf nextHandlerIndex]. rewrite Hi, Hw'.
    unfold invokeUser. cbn [decoratedUserHandler wrappedOf]. rewrite Hf, Hb.
    simpl. rewrite orb_false_r.
    destruct (isFnAsync u); simpl; unfold settle, ret; simpl;
      [by rewrite (promise_resolve_plain _ Hp)|reflexivity].
  - destruct fs as [|g fs]; [by apply Forall2_nil_inv_r in Hrest|].
    simpl in Hval. rewrite Es, Hp in Hval. simpl in Hval.
    change (S (length (u' :: us)) + n) with (S (S (length us) + n)).
    rewrite (call_handler _ _ _ _ _ _ Hw). unfold handler.
    rewrite Es. cbn [w_injectToolkit wrappedOf nextHandlerIndex w_isAsync].
    rewrite Hi, Hw'. cbn [__meta__ shouldBeTreatAsAsync wrappedOf].
    change (isFnAsync u' || existsb isFnAsync us)
      with (existsb isFnAsync (u' :: us)).
    change (existsb isFnAsync (u :: u' :: us))
      with (isFnAsync u || existsb isFnAsync (u' :: us)).
    pose proof (IH fs u' g (S i) [f args] (t ++ [(q, i, args)]) n
                  (drop_S_of_cons _ _ _ _ Hdrop) Hrest Hval) as Hnext.
    pose proof (plain_values_composition _ _ _ Hval) as Hc.
    cbn [invocations composition].
    destruct (isFnAsync u) eqn:Eu; cbn [orb];
      [|destruct (existsb isFnAsync (u' :: us)) eqn:Ee];
      unfold bind, invokeUser; cbn [decoratedUserHandler wrappedOf];
      rewrite Hf, Hb; unfold settle; cbn [exec ret];
      rewrite ?(promise_resolve_plain _ Hp); cbn [promise_then];
      unfold settle; rewrite Hnext;
      rewrite ?(promise_resolve_awaited _ _ Hc); simpl;
      by rewrite <- app_assoc.
Qed.

End MixedChains.
Lemma mixed_entry F0 us :
  let F := build us F0 in
  let p := length (pipelines F0) in
  has_chain F p us
  /\ (entrySequenceOf us F0).2 = F /\ (sequenceOf us F0).2 = F
  /\ forall x later, us = x :: later ->
       (entrySequenceOf us F0).1 = FCapture (Some (p, 0))
       /\ (sequenceOf us F0).1 = Some (FHandler p 0)
       /\ lookupHandler F p 0 =
          Some (wrappedOf (userHandlerDecorators F0) 0 x later).
Proof.
  intros F p. subst F p. split; [apply has_chain_build_new|].
  split; [reflexivity|]. split; [reflexivity|].
  intros x later ->. unfold entrySequenceOf, sequenceOf. cbn [fst].
  rewrite build_first_handler. repeat split.
  by rewrite build_lookup_new.
Qed.

(** X1. A non-empty chain of plain handlers, synchronous or async, whose
    values are neither promises nor stop-propagation values: the handler
    returned by [entrySequenceOf] or [sequenceOf] runs every handler once, in
    order, each on the value of its predecessor, and returns the composition
    of their functions: as it is when no handler is async, as a fulfilled
    promise as soon as one of them is. *)
Theorem mixed_plain_chain_is_composition F0 u us f fs args t :
  Forall2 (pure_handler (userHandlerDecorators F0)) (u :: us) (f :: fs) ->
  plain_values f fs args = true ->
  let result :=
    Normal (awaited (existsb isFnAsync (u :: us)) (composition f fs args)) in
  let t' := t ++ invocations (length (pipelines F0)) 0 f fs args in
  ends_with (entrySequenceOf (u :: us) F0).2 (entrySequenceOf (u :: us) F0).1
    args t result t'
  /\ exists h, (sequenceOf (u :: us) F0).1 = Some h
       /\ ends_with (sequenceOf (u :: us) F0).2 h args t result t'.
Proof.
  intros Hall Hval result t'. subst result t'.
  destruct (mixed_entry F0 (u :: us)) as (Hch & -> & -> & Hfirst).
  destruct (Hfirst u us eq_refl) as (-> & -> & Hw).
  pose proof (mixed_chain_from _ _ _ Hch us fs u f 0 args t 0
                eq_refl Hall Hval) as Hcall.
  pose proof (plain_values_composition _ _ _ Hval) as Hc.
  split.
  - apply (ends_with_of_call (S (S (length us) + 0))); [|discriminate].
    rewrite call_capture. unfold captured. rewrite Hw.
    cbn [__meta__ isAsync shouldBeTreatAsAsync wrappedOf].
    change (isFnAsync u || existsb isFnAsync us)
      with (existsb isFnAsync (u :: us)).
    destruct (isFnAsync u) eqn:Eu;
      [|destruct (existsb isFnAsync (u :: us)) eqn:Ee];
      unfold bind, try_catch; rewrite Hcall; try reflexivity.
    simpl in *. by rewrite Eu.
  - eexists. split; [reflexivity|].
    apply (ends_with_of_call (S (length us) + 0)); [exact Hcall|discriminate].
Qed.

Lemma mixed_plain_chain_is_composition_witness :
  ends_with (entrySequenceOf [plain first_arg; async_identity] (daisugi [])).2
    (entrySequenceOf [plain first_arg; async_identity] (daisugi [])).1
    [VNum 3] [] (Normal (VFulfilled (VNum 3)))
    [(0, 0, [VNum 3]); (0, 1, [VNum 3])].
Proof.
  refine (proj1 (mixed_plain_chain_is_composition (daisugi [])
            (plain first_arg) [async_identity]
            first_arg [first_arg] [VNum 3] [] _ _)).
  - repeat constructor.
  - reflexivity.
Defined.
(** ** A handler that throws, in a chain of plain handlers of both kinds *)

Lemma plain_values_through_head fs args :
  plain_values_through fs args = true -> stopPropagationPayload args = None.
Proof.
  destruct fs; simpl; by destruct (stopPropagationPayload args).
Qed.

Lemma raised_settled rejected e t :
  settle (fun t0 => (raised rejected e, t0)) t = (Normal (VRejected e), t).
Proof. by destruct rejected. Qed.

Section MixedThrows.

Variable F : Factory.
Variable q : nat.
Variable all : list Handler.
Hypothesis Hchain : has_chain F q all.
Local Abbreviation ds := (userHandlerDecorators F).

Variables (u : Handler) (rest : list Handler) (e : value).
Hypothesis Hinj : injectToolkit u = false.
Hypothesis Hkind : asyncFunction (decorate ds u) = isFnAsync u.
Hypothesis Hthrows :
  forall a t0, exec None (body (decorate ds u) a) t0 = (Thrown e, t0).

(** The throwing handler itself. *)
Lemma thrower_call i args t n :
  drop i all = u :: rest ->
  stopPropagationPayload args = None ->
  call (S n) F (FHandler q i) args t =
  (raised (isFnAsync u) e, t ++ [(q, i, args)]).
Proof.
  intros Hdrop Es.
  assert (Hw := has_chain_lookup F q all i Hchain). rewrite Hdrop in Hw.
  rewrite (call_handler _ _ _ _ _ _ Hw). unfold handler. rewrite Es.
  cbn [w_injectToolkit wrappedOf nextHandlerIndex w_isAsync]. rewrite Hinj.
  unfold bind, invokeUser. cbn [decoratedUserHandler wrappedOf].
  rewrite Hkind.
  destruct (lookupHandler F q (S i)) as [nh|];
    [destruct (shouldBeTreatAsAsync (__meta__ nh))|];
    destruct (isFnAsync u);
    unfold settle; rewrite Hthrows; reflexivity.
Qed.

(** After a prefix of plain handlers: the value comes out thrown when no
    promise is in play, as a rejection otherwise, and no handler after the
    throwing one runs. *)
Lemma mixed_chain_throws : forall pre fs i args t n,
  drop i all = pre ++ u :: rest ->
  Forall2 (pure_handler ds) pre fs ->
  plain_values_through fs args = true ->
  call (length pre + S n) F (FHandler q i) args t =
  (raised (rejects pre u rest) e,
   t ++ prefix_invocations q i fs args ++ [(q, i + length pre, pipe fs args)]).
Proof.
  induction pre as [|v pre IH]; intros fs i args t n Hdrop Hall Hval;
    pose proof (plain_values_through_head _ _ Hval) as Es.
  - apply Forall2_nil_inv_l in Hall as ->. simpl.
    rewrite Nat.add_0_r. by apply thrower_call.
  - destruct fs as [|f fs]; [by apply Forall2_cons_nil_inv in Hall|].
    apply Forall2_cons_1 in Hall as [(Hi & Hf & Hb) Hrest].
    simpl in Hval. rewrite Es in Hval.
    apply andb_true_iff in Hval as [Hp Hval]. apply negb_true_iff in Hp.
    rewrite <- app_comm_cons in Hdrop.
    assert (Hw := has_chain_lookup F q all i Hchain). rewrite Hdrop in Hw.
    assert (Hw' := has_chain_next F q all i _ _ Hchain Hdrop).
    pose proof (IH fs (S i) [f args] (t ++ [(q, i, args)]) n
                  (drop_S_of_cons _ _ _ _ Hdrop) Hrest Hval) as Hnext.
    assert (Hflag : existsb isFnAsync (pre ++ u :: rest) = false ->
                    rejects pre u rest = false).
    { destruct pre as [|x pre']; simpl; [|done].
      intros H. by apply orb_false_iff in H as [? _]. }
    destruct (pre ++ u :: rest) as [|x later] eqn:El; [by destruct pre|].
    change (length (v :: pre) + S n) with (S (length pre + S n)).
    rewrite (call_handler _ _ _ _ _ _ Hw). unfold handler. rewrite Es.
    cbn [w_injectToolkit wrappedOf nextHandlerIndex w_isAsync].
    rewrite Hi, Hw'. cbn [__meta__ shouldBeTreatAsAsync wrappedOf].
    change (isFnAsync x || existsb isFnAsync later)
      with (existsb isFnAsync (x :: later)).
    cbn [rejects prefix_invocations pipe app length].
    replace (i + S (length pre)) with (S i + length pre) by lia.
    change (existsb isFnAsync (v :: x :: later))
      with (isFnAsync v || existsb isFnAsync (x :: later)).
    destruct (isFnAsync v) eqn:Ev; cbn [orb];
      [|destruct (existsb isFnAsync (x :: later)) eqn:Ee];
      unfold bind, invokeUser; cbn [decoratedUserHandler wrappedOf];
      rewrite Hf, Hb, ?Ev.
    + unfold settle at 1. cbn [exec ret].
      rewrite (promise_resolve_plain _ Hp). cbn [promise_then].
      unfold settle. rewrite Hnext. rewrite <- app_assoc.
      cbn [existsb]. rewrite Ev. by destruct (rejects pre u rest).
    + cbn [exec ret]. rewrite (promise_resolve_plain _ Hp). cbn [promise_then].
      unfold settle. rewrite Hnext. rewrite <- app_assoc.
      rewrite El. cbn [existsb] in *. rewrite Ev, Ee.
      by destruct (rejects pre u rest).
    + cbn [exec ret]. rewrite Hnext. rewrite <- app_assoc.
      rewrite Hflag by reflexivity.
      rewrite El. cbn [existsb] in *. by rewrite Ev, Ee.
Qed.

End MixedThrows.
(** What the entry point makes of it: the value reaches [captureException],
    directly or through the rejection of a promise, unless the first handler
    threw it before any promise existed. *)
Lemma entry_of_thrower F0 pre fs u rest e args t n :
  Forall2 (pure_handler (userHandlerDecorators F0)) pre fs ->
  plain_values_through fs args = true ->
  injectToolkit u = false ->
  asyncFunction (decorate (userHandlerDecorators F0) u) = isFnAsync u ->
  (forall a t0,
     exec None (body (decorate (userHandlerDecorators F0) u) a) t0
     = (Thrown e, t0)) ->
  let F := build (pre ++ u :: rest) F0 in
  let p := length (pipelines F0) in
  let t' :=
    t ++ prefix_invocations p 0 fs args ++ [(p, length pre, pipe fs args)] in
  call (S (length pre + S n)) F (FCapture (Some (p, 0))) args t =
  if throws_before_any_promise pre u rest then (Thrown e, t')
  else if existsb isFnAsync (pre ++ u :: rest)
       then settle (captureException (call (length pre + S n) F) e) t'
       else captureException (call (length pre + S n) F) e t'.
Proof.
  intros Hall Hval Hinj Hkind Hthrows F p t'. subst F p t'.
  destruct (mixed_entry F0 (pre ++ u :: rest)) as (Hch & _ & _ & Hfirst).
  pose proof (mixed_chain_throws _ _ _ Hch u rest e Hinj Hkind Hthrows
                pre fs 0 args t n eq_refl Hall Hval) as Hcall.
  rewrite call_capture. unfold captured.
  destruct pre as [|v pre].
  - destruct (Hfirst u rest eq_refl) as (_ & _ & Hw).
    cbn [app] in *. rewrite Hw.
    cbn [__meta__ isAsync shouldBeTreatAsAsync wrappedOf
         throws_before_any_promise rejects existsb] in *.
    destruct (isFnAsync u) eqn:Eu; cbn [orb negb andb];
      [|destruct (existsb isFnAsync rest) eqn:Er];
      unfold bind, try_catch; rewrite Hcall; reflexivity.
  - destruct (Hfirst v (pre ++ u :: rest) eq_refl) as (_ & _ & Hw).
    rewrite <- app_comm_cons in *. rewrite Hw.
    cbn [__meta__ isAsync shouldBeTreatAsAsync wrappedOf
         throws_before_any_promise rejects] in *.
    rewrite <- app_comm_cons in Hcall.
    change (isFnAsync v || existsb isFnAsync (pre ++ u :: rest))
      with (existsb isFnAsync (v :: pre ++ u :: rest)).
    destruct (isFnAsync v) eqn:Ev.
    + assert (Hex : existsb isFnAsync (v :: pre ++ u :: rest) = true)
        by (simpl; by rewrite Ev).
      rewrite Hex in *. unfold bind. rewrite Hcall. reflexivity.
    + destruct (existsb isFnAsync (v :: pre ++ u :: rest)) eqn:Ee;
        unfold bind, try_catch; rewrite Hcall; reflexivity.
Qed.

(** X2. A handler that calls [abortWith(R)] after a prefix of plain
    handlers, in a chain of handlers of both kinds: unless it is a
    synchronous first handler followed by an async one, the entry point
    returns [R] when no handler is async, a promise resolved with [R]
    otherwise; the handlers after the aborting one do not run. The handler
    returned by [sequenceOf] hands the Abort signal on, thrown or as a
    rejection. *)
Theorem abort_in_plain_chain F0 pre fs u rest R args t :
  Forall2 (pure_handler (userHandlerDecorators F0)) pre fs ->
  plain_values_through fs args = true ->
  injectToolkit u = false ->
  asyncFunction (decorate (userHandlerDecorators F0) u) = isFnAsync u ->
  (forall a, body (decorate (userHandlerDecorators F0) u) a = AbortWith R) ->
  throws_before_any_promise pre u rest = false ->
  let us := pre ++ u :: rest in
  let p := length (pipelines F0) in
  let t' :=
    t ++ prefix_invocations p 0 fs args ++ [(p, length pre, pipe fs args)] in
  ends_with (entrySequenceOf us F0).2 (entrySequenceOf us F0).1 args t
    (Normal (if existsb isFnAsync us then promise_resolve R else R)) t'
  /\ exists h, (sequenceOf us F0).1 = Some h
       /\ ends_with (sequenceOf us F0).2 h args t
            (raised (rejects pre u rest) (AbortException R)) t'.
Proof.
  intros Hall Hval Hinj Hkind Hbody Hno us p t'. subst us p t'.
  assert (Hthrows : forall a t0,
    exec None (body (decorate (userHandlerDecorators F0) u) a) t0
    = (Thrown (AbortException R), t0)) by (intros; by rewrite Hbody).
  destruct (mixed_entry F0 (pre ++ u :: rest)) as (Hch & -> & -> & Hfirst).
  destruct (pre ++ u :: rest) as [|x later] eqn:El; [by destruct pre|].
  destruct (Hfirst x later eq_refl) as (-> & -> & _). rewrite <- El in *.
  split.
  - apply (ends_with_of_call (S (length pre + 1)));
      [|by destruct (existsb isFnAsync (pre ++ u :: rest))].
    rewrite (entry_of_thrower F0 pre fs u rest _ args t 0
               Hall Hval Hinj Hkind Hthrows).
    rewrite Hno. by destruct (existsb isFnAsync (pre ++ u :: rest)).
  - eexists. split; [reflexivity|].
    apply (ends_with_of_call (length pre + 1));
      [|by destruct (rejects pre u rest)].
    apply (mixed_chain_throws _ _ _ Hch u rest _ Hinj Hkind Hthrows
             pre fs 0 args t 0 eq_refl Hall Hval).
Qed.

Lemma abort_in_plain_chain_witness :
  ends_with
    (entrySequenceOf [async_identity; aborter (VNum 7); plain first_arg]
       (daisugi [])).2
    (entrySequenceOf [async_identity; aborter (VNum 7); plain first_arg]
       (daisugi [])).1
    [VNum 0] [] (Normal (VFulfilled (VNum 7)))
    [(0, 0, [VNum 0]); (0, 1, [VNum 0])].
Proof.
  refine (proj1 (abort_in_plain_chain (daisugi []) [async_identity] [first_arg]
            (aborter (VNum 7)) [plain first_arg] (VNum 7) [VNum 0] []
            _ eq_refl eq_refl eq_refl (fun _ => eq_refl) eq_refl)).
  repeat constructor.
Defined.

(** X3. A handler that throws a genuine error [e] (any value but
    [undefined], [null] and the Abort and Jump signals) after a prefix of
    plain handlers: the caller of the entry point receives [e] itself, thrown
    when no handler of the chain is async or when a synchronous first
    handler throws it, as the rejection of the returned promise otherwise; the handlers
    after the throwing one do not run. *)
Theorem genuine_error_reaches_caller F0 pre fs u rest e args t :
  Forall2 (pure_handler (userHandlerDecorators F0)) pre fs ->
  plain_values_through fs args = true ->
  injectToolkit u = false ->
  asyncFunction (decorate (userHandlerDecorators F0) u) = isFnAsync u ->
  (forall a, body (decorate (userHandlerDecorators F0) u) a = Throw e) ->
  genuine_error e = true ->
  let us := pre ++ u :: rest in
  let p := length (pipelines F0) in
  ends_with (entrySequenceOf us F0).2 (entrySequenceOf us F0).1 args t
    (raised (existsb isFnAsync us && negb (throws_before_any_promise pre u rest))
       e)
    (t ++ prefix_invocations p 0 fs args ++ [(p, length pre, pipe fs args)]).
Proof.
  intros Hall Hval Hinj Hkind Hbody He us p. subst us p.
  assert (Hthrows : forall a t0,
    exec None (body (decorate (userHandlerDecorators F0) u) a) t0
    = (Thrown e, t0)) by (intros; by rewrite Hbody).
  destruct (mixed_entry F0 (pre ++ u :: rest)) as (_ & -> & _ & Hfirst).
  destruct (pre ++ u :: rest) as [|x later] eqn:El; [by destruct pre|].
  destruct (Hfirst x later eq_refl) as (-> & _ & _). rewrite <- El in *.
  apply (ends_with_of_call (S (length pre + 1)));
    [|by destruct (existsb isFnAsync (pre ++ u :: rest)),
                  (throws_before_any_promise pre u rest)].
  rewrite (entry_of_thrower F0 pre fs u rest _ args t 0
             Hall Hval Hinj Hkind Hthrows).
  destruct (throws_before_any_promise pre u rest);
    [by rewrite andb_false_r|].
  rewrite andb_true_r.
  destruct (existsb isFnAsync (pre ++ u :: rest)); by destruct e.
Qed.

Lemma genuine_error_reaches_caller_witness :
  ends_with
    (entrySequenceOf [plain first_arg; async_identity; thrower (VError "boom")]
       (daisugi [])).2
    (entrySequenceOf [plain first_arg; async_identity; thrower (VError "boom")]
       (daisugi [])).1
    [VNum 0] [] (Normal (VRejected (VError "boom")))
    [(0, 0, [VNum 0]); (0, 1, [VNum 0]); (0, 2, [VNum 0])].
Proof.
  refine (genuine_error_reaches_caller (daisugi [])
            [plain first_arg; async_identity] [first_arg; first_arg]
            (thrower (VError "boom")) [] (VError "boom") [VNum 0] []
            _ eq_refl eq_refl eq_refl (fun _ => eq_refl) eq_refl).
  repeat constructor.
Defined.

(** X4. A handler that throws [undefined] or [null]: [captureException]
    fails on reading [error.code], and the caller of the entry point
    receives a type error in place of the thrown value (unless the first
    handler threw it synchronously before an async one, in which case
    nothing intercepts it). *)
Theorem thrown_undefined_becomes_type_error F0 pre fs u rest e args t :
  Forall2 (pure_handler (userHandlerDecorators F0)) pre fs ->
  plain_values_through fs args = true ->
  injectToolkit u = false ->
  asyncFunction (decorate (userHandlerDecorators F0) u) = isFnAsync u ->
  (forall a, body (decorate (userHandlerDecorators F0) u) a = Throw e) ->
  e = VUndefined \/ e = VNull ->
  let us := pre ++ u :: rest in
  let p := length (pipelines F0) in
  ends_with (entrySequenceOf us F0).2 (entrySequenceOf us F0).1 args t
    (if throws_before_any_promise pre u rest then Thrown e
     else raised (existsb isFnAsync us) VTypeError)
    (t ++ prefix_invocations p 0 fs args ++ [(p, length pre, pipe fs args)]).
Proof.
  intros Hall Hval Hinj Hkind Hbody He us p. subst us p.
  assert (Hthrows : forall a t0,
    exec None (body (decorate (userHandlerDecorators F0) u) a) t0
    = (Thrown e, t0)) by (intros; by rewrite Hbody).
  destruct (mixed_entry F0 (pre ++ u :: rest)) as (_ & -> & _ & Hfirst).
  destruct (pre ++ u :: rest) as [|x later] eqn:El; [by destruct pre|].
  destruct (Hfirst x later eq_refl) as (-> & _ & _). rewrite <- El in *.
  apply (ends_with_of_call (S (length pre + 1)));
    [|by destruct (existsb isFnAsync (pre ++ u :: rest)),
                  (throws_before_any_promise pre u rest)].
  rewrite (entry_of_thrower F0 pre fs u rest _ args t 0
             Hall Hval Hinj Hkind Hthrows).
  destruct (throws_before_any_promise pre u rest); [reflexivity|].
  destruct (existsb isFnAsync (pre ++ u :: rest)); by destruct He as [-> | ->].
Qed.

Lemma thrown_undefined_becomes_type_error_witness :
  ends_with (entrySequenceOf [plain first_arg; thrower VUndefined] (daisugi [])).2
    (entrySequenceOf [plain first_arg; thrower VUndefined] (daisugi [])).1
    [VNum 0] [] (Thrown VTypeError) [(0, 0, [VNum 0]); (0, 1, [VNum 0])].
Proof.
  refine (thrown_undefined_becomes_type_error (daisugi [])
            [plain first_arg] [first_arg] (thrower VUndefined) [] VUndefined
            [VNum 0] [] _ eq_refl eq_refl eq_refl (fun _ => eq_refl)
            (or_introl eq_refl)).
  repeat constructor.
Defined.
(** ** Toolkit-driven chains *)

Section Onion.

Variable F : Factory.
Variable q : nat.
Variable all : list Handler.
Hypothesis Hchain : has_chain F q all.
Local Abbreviation ds := (userHandlerDecorators F).

Lemma onion_from : forall us Ls u L i args t n,
  drop i all = u :: us ->
  Forall2 (layer_handler ds) (u :: us) (L :: Ls) ->
  call (S (length us) + n) F (FHandler q i) args t =
  (Normal (onion (L :: Ls) args), t ++ onion_invocations q i (L :: Ls) args).
Proof.
  induction us as [|u' us IH]; intros Ls u L i args t n Hdrop Hall;
    apply Forall2_cons_1 in Hall as [(Hi & Hf & Hb) Hrest];
    assert (Hw := has_chain_lookup F q all i Hchain); rewrite Hdrop in Hw;
    assert (Hw' := has_chain_next F q all i _ _ Hchain Hdrop).
  - apply Forall2_nil_inv_l in Hrest as ->.
    change (S (length (@nil Handler)) + n) with (S n).
    rewrite (call_handler _ _ _ _ _ _ Hw). unfold handler. simpl onion.
    simpl onion_invocations.
    destruct (stopPropagationPayload args); [by rewrite app_nil_r|].
    cbn [w_injectToolkit wrappedOf]. rewrite Hi.
    unfold invokeUser. cbn [decoratedUserHandler wrappedOf]. rewrite Hf, Hb.
    cbn [exec makeToolkit nextWith nextHandlerIndex wrappedOf].
    rewrite Hw'. reflexivity.
  - destruct Ls as [|L' Ls]; [by apply Forall2_nil_inv_r in Hrest|].
    change (S (length (u' :: us)) + n) with (S (S (length us) + n)).
    rewrite (call_handler _ _ _ _ _ _ Hw). unfold handler.
    cbn [onion onion_invocations].
    destruct (stopPropagationPayload args) eqn:Es; [by rewrite app_nil_r|].
    cbn [w_injectToolkit wrappedOf]. rewrite Hi.
    unfold invokeUser. cbn [decoratedUserHandler wrappedOf]. rewrite Hf, Hb.
    cbn [exec makeToolkit nextWith nextHandlerIndex wrappedOf].
    rewrite Hw'. unfold bind.
    rewrite (IH Ls u' L' (S i) (before L args) _ n
               (drop_S_of_cons _ _ _ _ Hdrop) Hrest).
    cbn [exec ret]. unfold ret. by rewrite <- app_assoc.
Qed.

End Onion.

(** X5. A non-empty chain of synchronous handlers that all take the toolkit
    and return [after(args, toolkit.nextWith(...before(args)))]: the handler
    returned by [sequenceOf] computes the nesting of the layers. Each
    [nextWith] reaches exactly the next handler of the chain, the [nextWith]
    of the last handler finds no successor and returns [null] without
    failing, and a handler called on a stop-propagation value is replaced by
    the payload. When no handler is classified async, the entry point of
    [entrySequenceOf] returns the same value. *)
Theorem toolkit_chain_is_onion F0 u us L Ls args t :
  Forall2 (layer_handler (userHandlerDecorators F0)) (u :: us) (L :: Ls) ->
  let result := Normal (onion (L :: Ls) args) in
  let t' := t ++ onion_invocations (length (pipelines F0)) 0 (L :: Ls) args in
  (exists h, (sequenceOf (u :: us) F0).1 = Some h
       /\ ends_with (sequenceOf (u :: us) F0).2 h args t result t')
  /\ (existsb isFnAsync (u :: us) = false ->
      ends_with (entrySequenceOf (u :: us) F0).2
        (entrySequenceOf (u :: us) F0).1 args t result t').
Proof.
  intros Hall result t'. subst result t'.
  destruct (mixed_entry F0 (u :: us)) as (Hch & -> & -> & Hfirst).
  destruct (Hfirst u us eq_refl) as (-> & -> & Hw).
  pose proof (onion_from _ _ _ Hch us Ls u L 0 args t 0 eq_refl Hall) as Hcall.
  split.
  - eexists. split; [reflexivity|].
    apply (ends_with_of_call (S (length us) + 0)); [exact Hcall|discriminate].
  - intros Hsync. simpl in Hsync. apply orb_false_iff in Hsync as [Hu Hus].
    apply (ends_with_of_call (S (S (length us) + 0))); [|discriminate].
    apply (captured_sync_normal _ _ _ _ _ _ _ _ _ Hw); simpl;
      [exact Hu | by rewrite Hu, Hus | exact Hcall].
Qed.

Lemma toolkit_chain_is_onion_witness :
  ends_with
    (entrySequenceOf
       [layer (mkLayer (fun a => a) (fun _ v => v));
        layer (mkLayer (fun a => a) (fun a _ => first_arg a))]
       (daisugi [])).2
    (entrySequenceOf
       [layer (mkLayer (fun a => a) (fun _ v => v));
        layer (mkLayer (fun a => a) (fun a _ => first_arg a))]
       (daisugi [])).1
    [VNum 3] [] (Normal (VNum 3)) [(0, 0, [VNum 3]); (0, 1, [VNum 3])].
Proof.
  refine (proj2 (toolkit_chain_is_onion (daisugi [])
            (layer (mkLayer (fun a => a) (fun _ v => v)))
            [layer (mkLayer (fun a => a) (fun a _ => first_arg a))]
            (mkLayer (fun a => a) (fun _ v => v))
            [mkLayer (fun a => a) (fun a _ => first_arg a)]
            [VNum 3] [] _) eq_refl).
  repeat constructor.
Defined.
(** ** The toolkit's [abort] accessor *)

(** X6. In a chain without async handler, a toolkit handler that is
    invoked on one argument [x], as every handler after a plain predecessor
    is, and reads [toolkit.abort] makes the entry point return [x]; the
    handlers after it do not run. *)
Theorem abort_getter_returns_first_argument F0 pre fs u rest x args t :
  Forall2 (pure_sync (userHandlerDecorators F0)) pre fs ->
  existsb isFnAsync (pre ++ u :: rest) = false ->
  asyncFunction (decorate (userHandlerDecorators F0) u) = false ->
  injectToolkit u = true ->
  pipe fs args = [x] ->
  body (decorate (userHandlerDecorators F0) u) [x] = TkAbort ->
  no_stop_through fs args = true ->
  let p := length (pipelines F0) in
  ends_with (entrySequenceOf (pre ++ u :: rest) F0).2
    (entrySequenceOf (pre ++ u :: rest) F0).1 args t
    (Normal x)
    (t ++ prefix_invocations p 0 fs args ++ [(p, length pre, [x])]).
Proof.
  intros Hall Hsync Hf Hinj Hpipe Hbody Hstop p. subst p.
  destruct (pre ++ u :: rest) as [|y later] eqn:El; [by destruct pre|].
  destruct (entry_of_sync_chain F0 _ y later eq_refl Hsync)
    as (-> & w & Hw & Ha & Hm).
  apply (ends_with_of_call (S (length pre + 1))); [|discriminate].
  cbn [entrySequenceOf snd].
  rewrite (captured_sync_thrown _ _ _ _ _ _ _
             (AbortException x)
             (t ++ prefix_invocations (length (pipelines F0)) 0 fs args
                ++ [(length (pipelines F0), length pre, [x])])
             Hw Ha Hm); [reflexivity|].
  rewrite <- El in *. rewrite <- Hpipe.
  apply (sync_chain_throws F0 pre fs u rest args t 0 _ Hall Hsync Hf Hstop).
  intros w' Hw'. rewrite Hpipe, Hbody.
  assert (Hi : w_injectToolkit w' = true).
  { rewrite build_lookup_new, drop_app_length in Hw'.
    injection Hw' as <-. exact Hinj. }
  rewrite Hi. reflexivity.
Qed.

Lemma abort_getter_returns_first_argument_witness :
  ends_with
    (entrySequenceOf [plain (fun _ => VNum 4); abort_getter; plain first_arg]
       (daisugi [])).2
    (entrySequenceOf [plain (fun _ => VNum 4); abort_getter; plain first_arg]
       (daisugi [])).1
    [VNum 0; VNum 1] [] (Normal (VNum 4))
    [(0, 0, [VNum 0; VNum 1]); (0, 1, [VNum 4])].
Proof.
  refine (abort_getter_returns_first_argument (daisugi [])
            [plain (fun _ => VNum 4)] [fun _ => VNum 4] abort_getter
            [plain first_arg] (VNum 4) [VNum 0; VNum 1] []
            _ eq_refl eq_refl eq_refl eq_refl eq_refl eq_refl).
  apply Forall2_cons_2; [repeat split|apply Forall2_nil_2].
Defined.

(** ** The state of a factory *)

(** X7. The state of a factory after any sequence of builds: the decorators
    are those given to [daisugi], and the array of each pipeline is the
    chain of its own list of handlers, where the handler at index [i] points
    to index [i + 1], is classified by its own syntax and carries the
    treat-as-async mark exactly when it or a later handler of the same list
    is async. A build never changes the arrays, or the marks, of the
    pipelines built before it. *)
Theorem factory_state ds uss :
  userHandlerDecorators (built_from ds uss) = ds
  /\ pipelines (built_from ds uss) = chainOf ds 0 <$> uss
  /\ forall q us i u,
       uss !! q = Some us -> us !! i = Some u ->
       exists w,
         lookupHandler (built_from ds uss) q i = Some w
         /\ nextHandlerIndex w = S i
         /\ isAsync (__meta__ w) = isFnAsync u
         /\ decoratedUserHandler w = decorate ds u
         /\ (shouldBeTreatAsAsync (__meta__ w) = true <->
             exists k uk, i <= k /\ us !! k = Some uk /\ isFnAsync uk = true).
Proof.
  destruct (built_from_pipelines ds uss) as [Hd Hp]. split; [exact Hd|]. split; [exact Hp|].
  intros q us i u Hq Hi.
  unfold lookupHandler. rewrite Hp, list_lookup_fmap, Hq. simpl.
  rewrite chainOf_lookup, (lookup_drop_cons _ _ _ Hi).
  eexists. split; [reflexivity|]. repeat split; try done.
  - simpl. intros H. apply orb_true_iff in H as [H|H].
    + exists i, u. auto.
    + apply existsb_exists in H as (uk & Hin & Ha).
      apply list_elem_of_In, list_elem_of_lookup in Hin as [k Hk].
      rewrite lookup_drop in Hk. exists (S i + k), uk. split; [lia|auto].
  - simpl. intros (k & uk & Hle & Hk & Ha).
    destruct (decide (k = i)) as [->|Hne].
    + assert (uk = u) as -> by congruence. by rewrite Ha.
    + rewrite (existsb_drop_later us (S i) k uk Hk Ha) by lia.
      apply orb_true_r.
Qed.

(** X8. In a factory reached by any sequence of builds, an entry of the
    registry is never dangling and never stale in kind: a registered name is
    a non-empty string, declared as [meta.name] by a handler of one of the
    pipelines, and the entry is the wrapped form of that handler. A handler
    whose name is the empty string is not registered. *)
Theorem registry_entries_are_live ds uss n q i :
  globalHandlersByName (built_from ds uss) !! n = Some (q, i) ->
  n <> EmptyString
  /\ exists us u,
       uss !! q = Some us /\ us !! i = Some u /\ name u = Some n
       /\ lookupHandler (built_from ds uss) q i
          = Some (wrappedOf ds i u (drop (S i) us)).
Proof.
  revert n q i. induction uss as [|us uss IH] using rev_ind; intros n q i H.
  - unfold built_from in H. cbn [fold_left daisugi globalHandlersByName] in H.
    by rewrite lookup_empty in H.
  - destruct (built_from_pipelines ds (uss ++ [us])) as (_ & Hp).
    destruct (built_from_pipelines ds uss) as (_ & Hp0).
    rewrite built_from_snoc in H. rewrite build_registry in H.
    assert (Hlook : forall q' us' i' u',
      (uss ++ [us]) !! q' = Some us' -> us' !! i' = Some u' ->
      lookupHandler (built_from ds (uss ++ [us])) q' i'
      = Some (wrappedOf ds i' u' (drop (S i') us'))).
    { intros q' us' i' u' Hq' Hi'. unfold lookupHandler.
      rewrite Hp, list_lookup_fmap, Hq'. simpl.
      by rewrite chainOf_lookup, (lookup_drop_cons _ _ _ Hi'). }
    destruct (last_named_from 0 us n) as [j|] eqn:E.
    + injection H as <- <-.
      destruct (last_named_from_Some _ _ _ _ E) as (_ & u & Hu & Hr).
      rewrite Nat.sub_0_r in Hu.
      destruct (registers_name _ _ Hr) as [Hn Hne].
      assert (Hq : (uss ++ [us]) !! length (pipelines (built_from ds uss))
                   = Some us).
      { rewrite Hp0, length_fmap. by apply list_lookup_middle. }
      split; [exact Hne|]. exists us, u. repeat split; auto.
    + destruct (IH _ _ _ H) as (Hne & us' & u' & Hq & Hi & Hn & _).
      split; [exact Hne|]. exists us', u'.
      assert (Hq' : (uss ++ [us]) !! q = Some us')
        by (by apply lookup_app_l_Some).
      repeat split; auto.
Qed.
Lemma registry_entries_are_live_witness :
  exists us u,
    [[named_identity "x"]] !! 0 = Some us /\ us !! 0 = Some u
    /\ name u = Some "x"
    /\ lookupHandler (built_from [] [[named_identity "x"]]) 0 0
       = Some (wrappedOf [] 0 u (drop 1 us)).
Proof.
  exact (proj2 (registry_entries_are_live [] [[named_identity "x"]] "x" 0 0
                  eq_refl)).
Defined.

Lemma factory_state_witness :
  exists w,
    lookupHandler (built_from [] [[plain first_arg; async_identity]]) 0 0
      = Some w
    /\ nextHandlerIndex w = 1
    /\ isAsync (__meta__ w) = false
    /\ decoratedUserHandler w = plain first_arg
    /\ (shouldBeTreatAsAsync (__meta__ w) = true <->
        exists k uk, 0 <= k
          /\ [plain first_arg; async_identity] !! k = Some uk
          /\ isFnAsync uk = true).
Proof.
  exact (proj2 (proj2 (factory_state [] [[plain first_arg; async_identity]]))
           0 [plain first_arg; async_identity] 0 (plain first_arg)
           eq_refl eq_refl).
Defined.

(** ** A jump enters the target's chain at the named handler *)

(** X9. A jump targets the wrapped handler registered under the name, and
    that handler sits in its own chain: the jump runs the chain of the
    target from the named handler on, successors included, and leaves out
    the handlers before it. With a jumping chain without async handler and a
    target chain of plain handlers, the entry point returns the composition
    of the functions of the target chain from the named handler on, applied
    to the arguments of the jump (as a promise when one of those handlers is
    async). *)
Theorem jump_runs_target_chain F0 skipped uB usB g gs pre fs u rest n A args t :
  let B := skipped ++ uB :: usB in
  let F1 := build B F0 in
  let us := pre ++ u :: rest in
  let F2 := build us F1 in
  let qB := length (pipelines F0) in
  let p := length (pipelines F1) in
  globalHandlersByName F2 !! n = Some (qB, length skipped) ->
  Forall2 (pure_handler (userHandlerDecorators F0)) (uB :: usB) (g :: gs) ->
  plain_values g gs A = true ->
  Forall2 (pure_sync (userHandlerDecorators F0)) pre fs ->
  existsb isFnAsync us = false ->
  asyncFunction (decorate (userHandlerDecorators F0) u) = false ->
  injectToolkit u = true ->
  (forall a, body (decorate (userHandlerDecorators F0) u) a = TkJumpTo n A) ->
  no_stop_through fs args = true ->
  ends_with F2 (entrySequenceOf us F1).1 args t
    (Normal (awaited (existsb isFnAsync (uB :: usB)) (composition g gs A)))
    (t ++ (prefix_invocations p 0 fs args ++ [(p, length pre, pipe fs args)])
       ++ invocations qB (length skipped) g gs A).
Proof.
  intros B F1 us F2 qB p Hreg HB Hval Hall Hsync Hf Hinj Hbody Hstop.
  subst B F1 us F2 qB p. rewrite app_assoc.
  apply (jump_in_sync_chain (build (skipped ++ uB :: usB) F0)
           pre fs u rest n A args t); auto.
  rewrite Hreg. unfold decorateWithExceptionCapture.
  set (F2 := build (pre ++ u :: rest) (build (skipped ++ uB :: usB) F0)).
  assert (Hch : has_chain F2 (length (pipelines F0)) (skipped ++ uB :: usB))
    by apply has_chain_build_old, has_chain_build_new.
  assert (Hw := has_chain_lookup F2 _ _ (length skipped) Hch).
  assert (Hdrop : drop (length skipped) (skipped ++ uB :: usB) = uB :: usB)
    by apply drop_app_length.
  rewrite Hdrop in Hw.
  pose proof (mixed_chain_from F2 _ _ Hch usB gs uB g (length skipped) A
                (t ++ prefix_invocations
                        (length (pipelines (build (skipped ++ uB :: usB) F0)))
                        0 fs args
                   ++ [(length (pipelines (build (skipped ++ uB :: usB) F0)),
                        length pre, pipe fs args)])
                0 Hdrop HB Hval) as Hcall.
  pose proof (plain_values_composition _ _ _ Hval) as Hc.
  apply (ends_with_of_call (S (S (length usB) + 0))); [|discriminate].
  rewrite call_capture. unfold captured. rewrite Hw.
  cbn [__meta__ isAsync shouldBeTreatAsAsync wrappedOf].
  change (isFnAsync uB || existsb isFnAsync usB)
    with (existsb isFnAsync (uB :: usB)).
  destruct (isFnAsync uB) eqn:Eu;
    [|destruct (existsb isFnAsync (uB :: usB)) eqn:Ee];
    unfold bind, try_catch; rewrite Hcall; try reflexivity.
  cbn [existsb]. rewrite Eu. reflexivity.
Qed.

Lemma jump_runs_target_chain_witness :
  ends_with
    (build [jumper "x" [VNum 5]]
       (build [plain (fun _ => VNum 1); named_identity "x";
               plain (fun _ => VNum 9)] (daisugi [])))
    (entrySequenceOf [jumper "x" [VNum 5]]
       (build [plain (fun _ => VNum 1); named_identity "x";
               plain (fun _ => VNum 9)] (daisugi []))).1
    [VNum 0] [] (Normal (VNum 9))
    [(1, 0, [VNum 0]); (0, 1, [VNum 5]); (0, 2, [VNum 5])].
Proof.
  refine (jump_runs_target_chain (daisugi []) [plain (fun _ => VNum 1)]
            (named_identity "x") [plain (fun _ => VNum 9)]
            first_arg [fun _ => VNum 9] [] [] (jumper "x" [VNum 5]) []
            "x" [VNum 5] [VNum 0] []
            eq_refl _ eq_refl (Forall2_nil_2 _ _ _) eq_refl eq_refl eq_refl
            (fun _ => eq_refl) eq_refl).
  repeat constructor.
Defined.
(** * Two more edges of the engine *)

(** X10. A synchronous toolkit handler in front of plain handlers: the
    engine pipes nothing after it. [toolkit.nextWith(...a)] runs the rest of
    the chain on [a] and returns what it computes, as a promise when one of
    those handlers is async, and the return value of the toolkit handler is
    the result of the chain. *)
Theorem toolkit_handler_over_plain_chain F0 u L v vs g gs args t :
  layer_handler (userHandlerDecorators F0) u L ->
  Forall2 (pure_handler (userHandlerDecorators F0)) (v :: vs) (g :: gs) ->
  stopPropagationPayload args = None ->
  plain_values g gs (before L args) = true ->
  let p := length (pipelines F0) in
  let inner :=
    awaited (existsb isFnAsync (v :: vs)) (composition g gs (before L args)) in
  let result := Normal (after L args inner) in
  let t' := t ++ (p, 0, args) :: invocations p 1 g gs (before L args) in
  (exists h, (sequenceOf (u :: v :: vs) F0).1 = Some h
     /\ ends_with (sequenceOf (u :: v :: vs) F0).2 h args t result t')
  /\ (existsb isFnAsync (u :: v :: vs) = false ->
      ends_with (entrySequenceOf (u :: v :: vs) F0).2
        (entrySequenceOf (u :: v :: vs) F0).1 args t result t').
Proof.
  intros (Hi & Hf & Hb) Hall Hstop Hval p inner result t'.
  subst p inner result t'.
  destruct (mixed_entry F0 (u :: v :: vs)) as (Hch & -> & -> & Hfirst).
  destruct (Hfirst u (v :: vs) eq_refl) as (-> & -> & Hw).
  pose proof (mixed_chain_from _ _ _ Hch vs gs v g 1 (before L args)
                (t ++ [(length (pipelines F0), 0, args)]) 0
                eq_refl Hall Hval) as Hnext.
  assert (Hcall :
    call (S (S (length vs) + 0)) (build (u :: v :: vs) F0)
      (FHandler (length (pipelines F0)) 0) args t
    = (Normal (after L args
         (awaited (existsb isFnAsync (v :: vs))
            (composition g gs (before L args)))),
       t ++ (length (pipelines F0), 0, args)
         :: invocations (length (pipelines F0)) 1 g gs (before L args))).
  { rewrite (call_handler _ _ _ _ _ _ Hw). unfold handler. rewrite Hstop.
    cbn [w_injectToolkit wrappedOf]. rewrite Hi.
    unfold invokeUser. cbn [decoratedUserHandler wrappedOf]. rewrite Hf, Hb.
    cbn [exec makeToolkit nextWith nextHandlerIndex wrappedOf].
    rewrite (has_chain_next _ _ _ 0 u (v :: vs) Hch eq_refl).
    unfold bind. rewrite Hnext. cbn [exec ret]. unfold ret.
    by rewrite <- app_assoc. }
  split.
  - eexists. split; [reflexivity|].
    apply (ends_with_of_call _ _ _ _ _ _ _ Hcall). discriminate.
  - intros Hsync. simpl in Hsync. apply orb_false_iff in Hsync as [Hu Hvs].
    apply (ends_with_of_call (S (S (S (length vs) + 0)))); [|discriminate].
    apply (captured_sync_normal _ _ _ _ _ _ _ _ _ Hw);
      [exact Hu | simpl; by rewrite Hu, Hvs | exact Hcall].
Qed.

Lemma toolkit_handler_over_plain_chain_witness :
  exists h,
    (sequenceOf [layer (mkLayer (fun a => a) (fun _ v => v));
                 plain first_arg; async_identity] (daisugi [])).1 = Some h
    /\ ends_with
         (sequenceOf [layer (mkLayer (fun a => a) (fun _ v => v));
                      plain first_arg; async_identity] (daisugi [])).2
         h [VNum 3] [] (Normal (VFulfilled (VNum 3)))
         [(0, 0, [VNum 3]); (0, 1, [VNum 3]); (0, 2, [VNum 3])].
Proof.
  refine (proj1 (toolkit_handler_over_plain_chain (daisugi [])
            (layer (mkLayer (fun a => a) (fun _ v => v)))
            (mkLayer (fun a => a) (fun _ v => v))
            (plain first_arg) [async_identity] first_arg [first_arg]
            [VNum 3] [] _ _ eq_refl eq_refl)).
  - repeat split.
  - repeat constructor.
Defined.

(** X11. An entry point called with a stop-propagation value as first
    argument runs no handler. When the first handler of the chain is
    synchronous the payload [R] comes back, as a promise when a later
    handler is async; when the first handler is async the entry wrapper
    calls [.catch] on the payload, and a payload that is not a promise makes
    the call fail with a type error. *)
Theorem entry_called_on_stop_value F0 u us R rest t :
  is_promise R = false ->
  ends_with (entrySequenceOf (u :: us) F0).2 (entrySequenceOf (u :: us) F0).1
    (stopPropagationWith R :: rest) t
    (if isFnAsync u then Thrown VTypeError
     else Normal (awaited (existsb isFnAsync us) R))
    t.
Proof.
  intros Hp.
  destruct (mixed_entry F0 (u :: us)) as (_ & -> & _ & Hfirst).
  destruct (Hfirst u us eq_refl) as (-> & _ & Hw).
  apply (ends_with_of_call 2); [|by destruct (isFnAsync u)].
  rewrite call_capture. unfold captured. rewrite Hw.
  cbn [__meta__ isAsync shouldBeTreatAsAsync wrappedOf].
  unfold bind, try_catch. rewrite (call_handler _ _ _ _ _ _ Hw).
  unfold handler. cbn [stopPropagationPayload stopPropagationWith ret].
  destruct (isFnAsync u); cbn [orb].
  - by destruct R.
  - destruct (existsb isFnAsync us); [|reflexivity].
    rewrite (promise_resolve_plain _ Hp). reflexivity.
Qed.

Lemma entry_called_on_stop_value_witness :
  ends_with (entrySequenceOf [async_identity] (daisugi [])).2
    (entrySequenceOf [async_identity] (daisugi [])).1
    [stopPropagationWith (VNum 1)] [] (Thrown VTypeError) [].
Proof.
  exact (entry_called_on_stop_value (daisugi []) async_identity [] (VNum 1)
           [] [] eq_refl).
Defined.
(** * The routing layer *)

Section OzaProperties.

Context {Params Headers Query Body Raw : Type}.
Variable parseQuery : string -> Query.
Variable emptyQuery : Query.

Local Abbreviation Ctx := (@Oza.Context Params Headers Query Body Raw).

Lemma indexOf_ge c s : (-1 <= Oza.indexOf c s)%Z.
Proof.
  induction s as [|a s IH]; simpl; [lia|].
  destruct (Ascii.eqb a c); [lia|].
  destruct (Oza.indexOf c s =? -1)%Z; lia.
Qed.

Lemma substring_all s : forall m,
  String.length s <= m -> String.substring 0 m s = s.
Proof.
  induction s as [|b s IH]; intros m H; [by destruct m|].
  destruct m as [|m]; [simpl in H; lia|].
  simpl. f_equal. apply IH. simpl in H. lia.
Qed.

(** X12. Splitting the url of a request at its first question mark, as the
    server does with [url.indexOf('?')]: without a question mark [getUrl]
    returns the whole url and [getQuerystring] the empty object; with one,
    the url is the path returned by [getUrl], the question mark and a rest,
    [getQuerystring] is that rest parsed, and the path has no question mark
    (later question marks stay in the query). *)
Theorem url_split_at_first_question_mark (url : string) :
  let pos := Oza.indexOf Oza.questionMark url in
  (pos = (-1)%Z ->
     Oza.getUrl pos url = url
     /\ Oza.getQuerystring parseQuery emptyQuery pos url = emptyQuery)
  /\ (pos <> (-1)%Z ->
      exists rest,
        url = String.append (Oza.getUrl pos url) (String Oza.questionMark rest)
        /\ Oza.getQuerystring parseQuery emptyQuery pos url = parseQuery rest
        /\ Oza.indexOf Oza.questionMark (Oza.getUrl pos url) = (-1)%Z).
Proof.
  intros pos. subst pos. split.
  - intros H. unfold Oza.getUrl, Oza.getQuerystring. by rewrite H.
  - unfold Oza.getUrl, Oza.getQuerystring.
    pose proof (indexOf_ge Oza.questionMark url) as Hge. intros Hne.
    assert (Hpos : (Oza.indexOf Oza.questionMark url >? -1)%Z = true)
      by (apply Z.gtb_lt; lia).
    rewrite Hpos.
    assert (Hsplit : forall s, Oza.indexOf Oza.questionMark s <> (-1)%Z ->
      exists rest,
        s = String.append
              (String.substring 0 (Z.to_nat (Oza.indexOf Oza.questionMark s)) s)
              (String Oza.questionMark rest)
        /\ (forall m, String.length s <= m ->
              String.substring (Z.to_nat (Oza.indexOf Oza.questionMark s + 1)) m s = rest)
        /\ Oza.indexOf Oza.questionMark
             (String.substring 0 (Z.to_nat (Oza.indexOf Oza.questionMark s)) s) = (-1)%Z).
    { clear. induction s as [|a s IH]; simpl; [done|].
      destruct (Ascii.eqb a Oza.questionMark) eqn:Ea.
      - intros _. apply Ascii.eqb_eq in Ea as ->. exists s. simpl.
        split; [done|]. split; [|done].
        intros m Hm. destruct m as [|m]; [lia|].
        apply substring_all. lia.
      - pose proof (indexOf_ge Oza.questionMark s) as Hge.
        destruct (Oza.indexOf Oza.questionMark s =? -1)%Z eqn:Ei; [done|].
        intros _. apply Z.eqb_neq in Ei.
        destruct (IH Ei) as (rest & Hs & Hq & Hp). exists rest.
        replace (Z.to_nat (Oza.indexOf Oza.questionMark s + 1))
          with (S (Z.to_nat (Oza.indexOf Oza.questionMark s))) by lia.
        replace (Z.to_nat (Oza.indexOf Oza.questionMark s + 1 + 1))
          with (S (Z.to_nat (Oza.indexOf Oza.questionMark s + 1))) by lia.
        cbn. rewrite Ea, Hp. split; [by rewrite Hs at 1|]. split; [|done].
        intros m Hm. apply Hq. lia. }
    destruct (Hsplit url Hne) as (rest & Hs & Hq & Hp).
    exists rest. split; [exact Hs|]. split; [|exact Hp].
    by rewrite (Hq (String.length url)).
Qed.

End OzaProperties.

Lemma url_split_at_first_question_mark_witness :
  exists rest,
    "/a?x=1?y"%string
    = String.append
        (Oza.getUrl (Oza.indexOf Oza.questionMark "/a?x=1?y") "/a?x=1?y")
        (String Oza.questionMark rest)
    /\ Oza.getQuerystring (fun q : string => q) EmptyString
         (Oza.indexOf Oza.questionMark "/a?x=1?y") "/a?x=1?y" = rest
    /\ Oza.indexOf Oza.questionMark
         (Oza.getUrl (Oza.indexOf Oza.questionMark "/a?x=1?y") "/a?x=1?y")
       = (-1)%Z.
Proof.
  apply (proj2 (url_split_at_first_question_mark (fun q : string => q)
                  EmptyString "/a?x=1?y")).
  vm_compute. discriminate.
Defined.

Section OzaRouting.

Context {Params Headers Query Body Raw : Type}.
Variable pathMatch : string -> option (string -> @Oza.MatchResult Params).

Local Abbreviation Ctx := (@Oza.Context Params Headers Query Body Raw).
Local Abbreviation RoutingHandler :=
  (Ctx -> @Oza.Reply Params Headers Query Body Raw).

(** Once the context carries a match (a non-empty
    [request.matchedRoutePath]), every routing handler returns
    [stopPropagationWith(context)] and leaves the context as it is. *)
Lemma matched_context_is_kept (h : RoutingHandler) (context : Ctx) :
  Oza.routing_handler pathMatch h ->
  Oza.truthy (Oza.matchedRoutePath (Oza.request context)) = true ->
  h context = Oza.Stopped context.
Proof.
  intros [->|(rp & rm & Hh)] Hm.
  - unfold Oza.notFound. by rewrite Hm.
  - unfold Oza.createRouteHandler in Hh.
    destruct (pathMatch rp) as [fn|]; [|discriminate].
    injection Hh as <-. unfold Oza.routeHandler. by rewrite Hm.
Qed.

(** The stop guard of a closure. *)
Lemma wrappedHandler_stop i (h : RoutingHandler) rest (context : Ctx) :
  Oza.wrappedHandler i h rest (Oza.PStop context) = (Oza.Returned context, []).
Proof. by destruct rest. Qed.

(** X13. In one pipeline of routing handlers (synchronous, without toolkit,
    as [sequenceOf] composes them without decorators), only the first route
    decides. When it does not take the request, for its method or its path,
    its stop-propagation value ends the pipeline with the context untouched:
    no later route is tried and [notFound] does not set the status 404. When
    it matches, the second handler runs, sees the match and stops, and no
    further handler runs; the pipeline returns the matched context, or the
    stop-propagation value around it when the second handler is the last. A
    malformed escape in the url makes the first route throw. *)
Theorem only_the_first_route_decides
    (routePath routeMethod : string) (h : RoutingHandler)
    (h' : RoutingHandler) (rest : list RoutingHandler) (context : Ctx) :
  Oza.createRouteHandler pathMatch routePath routeMethod = Some h ->
  routePath <> EmptyString ->
  Forall (Oza.routing_handler pathMatch) (h' :: rest) ->
  Oza.truthy (Oza.matchedRoutePath (Oza.request context)) = false ->
  exists matchFn,
    pathMatch routePath = Some matchFn
    /\ Oza.wrappedHandler 0 h (h' :: rest) (Oza.PContext context)
       = Oza.first_route_only routePath matchFn routeMethod
           (bool_decide (rest = [])) context.
Proof.
  intros Hh Hpath Hrest Hm. unfold Oza.createRouteHandler in Hh.
  destruct (pathMatch routePath) as [matchFn|]; [|discriminate].
  injection Hh as <-. exists matchFn. split; [reflexivity|].
  apply Forall_cons in Hrest as [Hh' Hrest].
  unfold Oza.first_route_only. cbn [Oza.wrappedHandler].
  unfold Oza.routeHandler at 1. rewrite Hm.
  destruct (negb (String.eqb routeMethod "ALL")
            && negb (String.eqb (Oza.method (Oza.request context)) routeMethod));
    [by rewrite wrappedHandler_stop|].
  destruct (matchFn (Oza.url (Oza.request context))) as [ps| |];
    [|by rewrite wrappedHandler_stop|reflexivity].
  assert (Hnew : Oza.truthy (Oza.matchedRoutePath (Oza.request
            (Oza.set_statusCode 200 (Oza.set_match routePath ps context))))
          = true) by (simpl; by destruct routePath).
  destruct rest as [|h'' rest]; cbn [Oza.wrappedHandler fst snd].
  - by rewrite (matched_context_is_kept h' _ Hh' Hnew).
  - rewrite (matched_context_is_kept h' _ Hh' Hnew), wrappedHandler_stop.
    rewrite bool_decide_false by discriminate. reflexivity.
Qed.

End OzaRouting.

Lemma only_the_first_route_decides_witness :
  exists matchFn,
    (fun rp => Some (fun u => if String.eqb rp u then Oza.Matched tt
                              else Oza.NoMatch)) "/a"%string
      = Some matchFn
    /\ Oza.wrappedHandler 0
         (Oza.routeHandler "/a"
            (fun u => if String.eqb "/a" u then Oza.Matched tt else Oza.NoMatch)
            "GET")
         [Oza.routeHandler "/b"
            (fun u => if String.eqb "/b" u then Oza.Matched tt else Oza.NoMatch)
            "GET";
          Oza.notFound]
         (Oza.PContext
            (Oza.mkContext tt tt (Oza.mkRequest "/b" None tt tt tt tt "GET")
               (Oza.mkResponse 200 tt tt)))
       = Oza.first_route_only "/a" matchFn "GET" false
           (Oza.mkContext tt tt (Oza.mkRequest "/b" None tt tt tt tt "GET")
              (Oza.mkResponse 200 tt tt)).
Proof.
  refine (only_the_first_route_decides
    (fun rp => Some (fun u => if String.eqb rp u then Oza.Matched tt
                              else Oza.NoMatch))
    "/a" "GET" _ _ [Oza.notFound]
    (Oza.mkContext tt tt (Oza.mkRequest "/b" None tt tt tt tt "GET")
       (Oza.mkResponse 200 tt tt)) eq_refl _ _ eq_refl).
  - discriminate.
  - apply List.Forall_cons; [|apply List.Forall_cons; [|apply List.Forall_nil]].
    + right. by exists "/b"%string, "GET"%string.
    + by left.
Defined.
